(** * review-agent.ts: the review loop, the result guard and the report

    A shallow embedding of [src/review-agent.ts].  The program drives one
    agent session, prints a progress line for every tool call the agent
    makes, keeps the structured payload of the final message when it has the
    expected shape, and prints a report grouped by severity.

    - Values.  Everything that reaches the program was parsed from JSON by
      the SDK, so a JavaScript value is undefined, null, a boolean, a
      number, a string, an array or a plain object with data properties.
      TypeScript's casts and type guards check nothing at run time: the
      fields of a tool input and the elements of [issues] stay untyped.
    - Effects.  Console output is the list of the strings given to
      [console.log], in order.  An exception is an explicit outcome, and the
      lines logged before it stay logged.
    - The session.  [query] is the SDK's; the program sees only the messages
      it yields, so the stream of messages is an input of [runCodeReview].

    [validateDirectory] and the argument handling of [main] work on the file
    system and are not embedded. *)

From Stdlib Require Import ZArith String Ascii List DecimalString.
From stdpp Require Import base option strings list gmap.

Set Warnings "-register-all".
Open Scope string_scope.

(** ** Numbers

    A double is kept by value where the program depends on it.  [NInt z] is
    the double whose value is the integer [z], for [z] of magnitude below
    1e21, which is where JavaScript prints a number as a plain numeral;
    minus zero, NaN and the infinities are apart.  Any other finite double
    is [NFrac text], named by the text that Number::toString prints for it
    (that text determines the double). *)

Inductive number : Type :=
| NInt (z : Z)
| NNegZero
| NNaN
| NInfinity (negative : bool)
| NFrac (text : string).

Definition Number_toString (n : number) : string :=
  match n with
  | NInt z => NilZero.string_of_int (Z.to_int z)
  | NNegZero => "0"
  | NNaN => "NaN"
  | NInfinity false => "Infinity"
  | NInfinity true => "-Infinity"
  | NFrac text => text
  end.

(** The text of an array length. *)
Definition nat_toString (n : nat) : string :=
  NilZero.string_of_uint (Nat.to_uint n).

(** ** Values *)

Inductive value : Type :=
| VUndefined
| VNull
| VBool (b : bool)
| VNumber (n : number)
| VString (s : string)
| VArray (elems : list value)
| VObject (props : gmap string value).

(** [typeof v] *)
Definition typeof (v : value) : string :=
  match v with
  | VUndefined => "undefined"
  | VNull => "object"
  | VBool _ => "boolean"
  | VNumber _ => "number"
  | VString _ => "string"
  | VArray _ => "object"
  | VObject _ => "object"
  end.

(** [Array.isArray(v)] *)
Definition Array_isArray (v : value) : bool :=
  match v with
  | VArray _ => true
  | _ => false
  end.

(** [v === null] *)
Definition is_null (v : value) : bool :=
  match v with
  | VNull => true
  | _ => false
  end.

(** [v === s] for a string literal [s]: strict equality never converts. *)
Definition strict_eq_string (v : value) (s : string) : bool :=
  match v with
  | VString t => String.eqb t s
  | _ => false
  end.

(** ToBoolean, the test behind [c ? a : b], [if (c)] and [a && b]. *)
Definition ToBoolean (v : value) : bool :=
  match v with
  | VUndefined => false
  | VNull => false
  | VBool b => b
  | VNumber (NInt z) => negb (z =? 0)%Z
  | VNumber NNegZero => false
  | VNumber NNaN => false
  | VNumber (NInfinity _) => true
  | VNumber (NFrac _) => true
  | VString s => negb (String.eqb s EmptyString)
  | VArray _ => true
  | VObject _ => true
  end.

(** [v ?? d] *)
Definition nullish (v d : value) : value :=
  match v with
  | VUndefined => d
  | VNull => d
  | _ => v
  end.

(** ** Exceptions and console output *)

Inductive error : Type :=
| TypeError (msg : string)
| SessionError (msg : string).

Inductive completion (A : Type) : Type :=
| Normal (a : A)
| Throw (e : error).
Arguments Normal {A} a.
Arguments Throw {A} e.

Global Instance completion_ret : MRet completion := λ A a, Normal a.
Global Instance completion_bind : MBind completion := λ A B f c,
  match c with
  | Normal a => f a
  | Throw e => Throw e
  end.

(** A computation that writes to the console: the lines it has logged, in
    order, and how it ended.  The lines logged before an exception stay
    logged. *)
Record JS (A : Type) : Type := MkJS {
  console : list string;
  outcome : completion A
}.
Arguments MkJS {A} console outcome.
Arguments console {A} j.
Arguments outcome {A} j.

Global Instance JS_ret : MRet JS := λ A a, MkJS [] (Normal a).
Global Instance JS_bind : MBind JS := λ A B f m,
  match outcome m with
  | Normal a => MkJS (console m ++ console (f a)) (outcome (f a))
  | Throw e => MkJS (console m) (Throw e)
  end.

(** [console.log(line)] *)
Definition console_log (line : string) : JS unit := MkJS [line] (Normal tt).

(** An expression evaluated for its value: no output of its own. *)
Definition eval {A : Type} (c : completion A) : JS A := MkJS [] c.

(** ** Property reads

    [o.k] on a plain object is its own data property, or undefined: none of
    the keys this program reads (issues, summary, overallScore, severity,
    category, file, line, description, suggestion, file_path, pattern, path,
    subagent_type) is a property of Object.prototype. *)
Definition prop (o : gmap string value) (k : string) : value :=
  default VUndefined (o !! k).

(** [v.k] for any value: reading a property of undefined or null throws,
    with a message that names the property; primitives and arrays have none
    of the keys above. *)
Definition Get (v : value) (k : string) : completion value :=
  match v with
  | VUndefined =>
      Throw (TypeError ("Cannot read properties of undefined (reading '"
                        ++ k ++ "')"))
  | VNull =>
      Throw (TypeError ("Cannot read properties of null (reading '"
                        ++ k ++ "')"))
  | VObject o => Normal (prop o k)
  | _ => Normal VUndefined
  end.

(** ** isValidReviewResult (lines 63-70) *)

Definition isValidReviewResult (obj : value) : completion bool :=
  if negb (String.eqb (typeof obj) "object") || is_null obj then Normal false
  else
    let result := obj in
    issues ← Get result "issues";
    if negb (Array_isArray issues) then Normal false
    else
      summary ← Get result "summary";
      if negb (String.eqb (typeof summary) "string") then Normal false
      else
        overallScore ← Get result "overallScore";
        if negb (String.eqb (typeof overallScore) "number") then Normal false
        else Normal true.

(** ** Strings

    Rocq strings are byte strings; the program's literals are kept as their
    UTF-8 bytes.  A line break and a double quote are written by code. *)

Definition nl : string := String "010" EmptyString.
Definition dquote : string := String "034" EmptyString.

(** [s.repeat(n)] *)
Fixpoint String_repeat (s : string) (n : nat) : string :=
  match n with
  | O => EmptyString
  | S k => s ++ String_repeat s k
  end.

(** [s.toUpperCase()], on the ASCII letters: the program applies it to its
    own four severity keys only. *)
Definition upper_ascii (c : ascii) : ascii :=
  let n := nat_of_ascii c in
  if (97 <=? n)%nat && (n <=? 122)%nat then ascii_of_nat (n - 32) else c.

Fixpoint toUpperCase (s : string) : string :=
  match s with
  | EmptyString => EmptyString
  | String c rest => String (upper_ascii c) (toUpperCase rest)
  end.

(** ** ToString

    [String(v)] and the [${v}] of a template literal.  A primitive always has
    a text.  An array is the texts of its elements joined by commas, with
    undefined and null elements left empty (Array.prototype.join).  A plain
    object goes through OrdinaryToPrimitive: [toString] is looked up first,
    and a parsed object that carries its own [toString] property shadows
    Object.prototype.toString with a value that is not callable; the
    inherited [valueOf] then returns the object itself, and the conversion
    ends in a TypeError.  Without that property the text is
    [[object Object]]. *)

Definition cannot_convert : error :=
  TypeError "Cannot convert object to primitive value".

Fixpoint ToString (v : value) : completion string :=
  match v with
  | VUndefined => Normal "undefined"
  | VNull => Normal "null"
  | VBool true => Normal "true"
  | VBool false => Normal "false"
  | VNumber n => Normal (Number_toString n)
  | VString s => Normal s
  | VArray elems =>
      (fix join (l : list value) : completion string :=
         match l with
         | [] => Normal EmptyString
         | e :: rest =>
             s ← match e with
                 | VUndefined => Normal EmptyString
                 | VNull => Normal EmptyString
                 | _ => ToString e
                 end;
             match rest with
             | [] => Normal s
             | _ :: _ => r ← join rest; Normal (s ++ "," ++ r)
             end
         end) elems
  | VObject o =>
      if decide (is_Some (o !! "toString")) then Throw cannot_convert
      else Normal "[object Object]"
  end.

(** Whether [ToString] has a text for [v]: no object with an own [toString]
    property is reached through arrays. *)
Fixpoint convertible (v : value) : bool :=
  match v with
  | VArray elems =>
      (fix all (l : list value) : bool :=
         match l with
         | [] => true
         | e :: rest => convertible e && all rest
         end) elems
  | VObject o => bool_decide (o !! "toString" = None)
  | _ => true
  end.

(** ** Tool calls (lines 42-50, 146-154) *)

Record ToolUseBlock : Type := {
  name : string;
  input : gmap string value
}.

Definition getToolSummary (block : ToolUseBlock) : completion string :=
  let input := input block in
  if String.eqb (name block) "Read" then
    ToString (nullish (prop input "file_path") (VString "file"))
  else if String.eqb (name block) "Glob" then
    ToString (nullish (prop input "pattern") (VString "pattern"))
  else if String.eqb (name block) "Grep" then
    pattern ← ToString (nullish (prop input "pattern") (VString EmptyString));
    root ← ToString (nullish (prop input "path") (VString "."));
    Normal (dquote ++ pattern ++ dquote ++ " in " ++ root)
  else Normal EmptyString.

(** ** Session messages

    A content block of an assistant message is an object; the loop looks only
    at whether it has a [name] and an [input] and, if so, reads it as a
    [ToolUseBlock]. *)
Record ContentBlock : Type := {
  block_name : option string;
  block_input : option (gmap string value)
}.

Inductive SDKMessage : Type :=
| SDKAssistantMessage (content : list ContentBlock)
| SDKResultMessage (subtype : string) (structured_output : value)
                   (total_cost_usd : option number)
| SDKOtherMessage (type : string).

(** What [query] hands to [for await]: the messages it yields, and whether
    the iteration then ends or fails.  A session that cannot be opened fails
    before its first message. *)
Record EventStream : Type := {
  events : list SDKMessage;
  failure : option string
}.

(** [for (const x of l) body] *)
Fixpoint for_of {A : Type} (l : list A) (body : A → JS unit) : JS unit :=
  match l with
  | [] => mret tt
  | x :: rest => body x ;; for_of rest body
  end.

Section Review.

(** [x.toFixed(4)] is the runtime's decimal rounding of a double; it does not
    throw for four digits. *)
Variable Number_toFixed4 : number → string.

(** Lines 116-124: the progress line of one content block. *)
Definition progress (block : ContentBlock) : JS unit :=
  match block_name block, block_input block with
  | Some n, Some i =>
      let toolBlock := {| name := n; input := i |} in
      if String.eqb (name toolBlock) "Task" then
        let taskInput := input toolBlock in
        who ← eval (ToString (nullish (prop taskInput "subagent_type")
                                      (VString "unknown")));
        console_log ("🤖 Delegating to: " ++ who)
      else
        summary ← eval (getToolSummary toolBlock);
        console_log ("📂 " ++ name toolBlock ++ ": " ++ summary)
  | _, _ => mret tt
  end.

(** Lines 113-140: the body of the loop, from the slot before the message to
    the slot after it. *)
Definition on_message (result : option value) (message : SDKMessage)
  : JS (option value) :=
  match message with
  | SDKAssistantMessage content => for_of content progress ;; mret result
  | SDKResultMessage subtype structured_output total_cost_usd =>
      if String.eqb subtype "success" && ToBoolean structured_output then
        valid ← eval (isValidReviewResult structured_output);
        if valid : bool then
          console_log (nl ++ "✅ Review complete! Cost: $" ++
                       Number_toFixed4 (default (NInt 0) total_cost_usd)) ;;
          mret (Some structured_output)
        else
          console_log (nl ++ "❌ Review failed: Invalid response structure") ;;
          mret result
      else
        console_log (nl ++ "❌ Review failed: " ++ subtype) ;;
        mret result
  | SDKOtherMessage _ => mret result
  end.

(** [for await (const message of stream) { ... }] *)
Fixpoint for_await (messages : list SDKMessage) (result : option value)
  : JS (option value) :=
  match messages with
  | [] => mret result
  | message :: rest => r ← on_message result message; for_await rest r
  end.

(** Lines 72-144. *)
Definition runCodeReview (directory : string) (stream : EventStream)
  : JS (option value) :=
  console_log (nl ++ String_repeat "=" 50) ;;
  console_log "🔍 Code Review Agent" ;;
  console_log ("📁 Directory: " ++ directory) ;;
  console_log (String_repeat "=" 50 ++ nl) ;;
  result ← for_await (events stream) None;
  match failure stream with
  | Some e => MkJS [] (Throw (SessionError e))
  | None => mret result
  end.

End Review.

(** ** The report (lines 5-16, 156-191)

    [printResults] is typed on [ReviewResult] and is called on a payload that
    [isValidReviewResult] has accepted.  The guard settles the types of the
    three fields and looks at no element of [issues], so the elements stay
    untyped values here. *)

Record ReviewResult : Type := {
  issues : list value;
  summary : string;
  overallScore : number
}.

(** The payload read at the type the guard narrows it to. *)
Definition as_ReviewResult (obj : value) : option ReviewResult :=
  match obj with
  | VObject o =>
      match prop o "issues", prop o "summary", prop o "overallScore" with
      | VArray elems, VString s, VNumber n =>
          Some {| issues := elems; summary := s; overallScore := n |}
      | _, _, _ => None
      end
  | _ => None
  end.

(** [l.filter(f)] with a callback that may throw. *)
Fixpoint Array_filter (f : value → completion bool) (l : list value)
  : completion (list value) :=
  match l with
  | [] => Normal []
  | x :: rest =>
      keep ← f x;
      kept ← Array_filter f rest;
      Normal (if keep : bool then x :: kept else kept)
  end.

(** [i => i.severity === sev] *)
Definition severity_is (sev : string) (i : value) : completion bool :=
  severity ← Get i "severity";
  Normal (strict_eq_string severity sev).

(** Lines 165-170, as [Object.entries] lists it: keys in insertion order. *)
Definition byCategory (issues : list value)
  : completion (list (string * list value)) :=
  critical ← Array_filter (severity_is "critical") issues;
  high ← Array_filter (severity_is "high") issues;
  medium ← Array_filter (severity_is "medium") issues;
  low ← Array_filter (severity_is "low") issues;
  Normal [("critical", critical); ("high", high);
          ("medium", medium); ("low", low)].

(** Line 183. *)
Definition location (issue : value) : completion value :=
  line ← Get issue "line";
  if ToBoolean line then
    file ← Get issue "file";
    f ← ToString file;
    line ← Get issue "line";
    l ← ToString line;
    Normal (VString (f ++ ":" ++ l))
  else Get issue "file".

(** Lines 183-188. *)
Definition print_issue (issue : value) : JS unit :=
  location ← eval (location issue);
  first ← eval (category ← Get issue "category";
                c ← ToString category;
                l ← ToString location;
                Normal (nl ++ "[" ++ c ++ "] " ++ l));
  console_log first ;;
  second ← eval (description ← Get issue "description";
                 d ← ToString description;
                 Normal ("  " ++ d));
  console_log second ;;
  suggestion ← eval (Get issue "suggestion");
  if ToBoolean suggestion then
    third ← eval (suggestion ← Get issue "suggestion";
                  s ← ToString suggestion;
                  Normal ("  💡 " ++ s));
    console_log third
  else mret tt.

(** Lines 175-177. *)
Definition icon_of (severity : string) : string :=
  if String.eqb severity "critical" then "🔴"
  else if String.eqb severity "high" then "🟠"
  else if String.eqb severity "medium" then "🟡"
  else "🟢".

(** Line 179. *)
Definition severity_header (severity : string) (count : nat) : string :=
  nl ++ icon_of severity ++ " " ++ toUpperCase severity ++
  " (" ++ nat_toString count ++ ")".

(** Lines 172-190: one turn of the loop over the buckets. *)
Definition print_bucket (entry : string * list value) : JS unit :=
  let '(severity, issues) := entry in
  if (length issues =? 0)%nat then mret tt
  else
    console_log (severity_header severity (length issues)) ;;
    console_log (String_repeat "-" 30) ;;
    for_of issues print_issue.

(** Lines 156-191. *)
Definition printResults (result : ReviewResult) : JS unit :=
  console_log (nl ++ String_repeat "=" 50) ;;
  console_log "📊 REVIEW RESULTS" ;;
  console_log (String_repeat "=" 50 ++ nl) ;;
  console_log ("Score: " ++ Number_toString (overallScore result) ++ "/100") ;;
  console_log ("Issues Found: " ++ nat_toString (length (issues result)) ++ nl) ;;
  console_log ("Summary: " ++ summary result ++ nl) ;;
  buckets ← eval (byCategory (issues result));
  for_of buckets print_bucket.

(** ** Vocabulary of the statements *)

(** The four severities, in the order of the report. *)
Definition severities : list string := ["critical"; "high"; "medium"; "low"].

(** The severity of an element, read without effects: [Some s] when the
    element is an object whose [severity] is the string [s]. *)
Definition severity_of (i : value) : option string :=
  match i with
  | VObject o =>
      match prop o "severity" with
      | VString s => Some s
      | _ => None
      end
  | _ => None
  end.

Definition has_severity (sev : string) (i : value) : bool :=
  bool_decide (severity_of i = Some sev).

(** An element that [i.severity] can be read from. *)
Definition readable (i : value) : bool :=
  match i with
  | VUndefined => false
  | VNull => false
  | _ => true
  end.

Fixpoint starts_with (p s : string) : bool :=
  match p, s with
  | EmptyString, _ => true
  | String a p', String b s' => Ascii.eqb a b && starts_with p' s'
  | String _ _, EmptyString => false
  end.

(** A logged line that opens a bucket: a line break, one of the four
    markers, a space. *)
Definition is_severity_header (line : string) : bool :=
  existsb (λ icon, starts_with (nl ++ icon ++ " ") line)
          ["🔴"; "🟠"; "🟡"; "🟢"].

(** The bucket headers among logged lines, in the order they were logged. *)
Definition headers (lines : list string) : list string :=
  List.filter is_severity_header lines.

(** The headers a report of [issues] is due: one per severity that occurs,
    in the order of [severities], with its count. *)
Definition due_headers (issues : list value) : list string :=
  flat_map (λ sev,
    let n := length (List.filter (has_severity sev) issues) in
    if (n =? 0)%nat then [] else [severity_header sev n]) severities.

(** The text the summaries and the delegation line give to an input field:
    the fallback when the field is absent (or holds undefined or null), and
    the text of its value otherwise. *)
Definition field_text (input : gmap string value) (key fallback : string)
  : completion string :=
  match input !! key with
  | None => Normal fallback
  | Some VUndefined => Normal fallback
  | Some VNull => Normal fallback
  | Some v => ToString v
  end.

(** The summary as documented: a closed dispatch on the tool name. *)
Definition documented_summary (block : ToolUseBlock) : completion string :=
  if decide (name block = "Read") then
    field_text (input block) "file_path" "file"
  else if decide (name block = "Glob") then
    field_text (input block) "pattern" "pattern"
  else if decide (name block = "Grep") then
    pattern ← field_text (input block) "pattern" EmptyString;
    root ← field_text (input block) "path" ".";
    Normal (dquote ++ pattern ++ dquote ++ " in " ++ root)
  else Normal EmptyString.

(** A content block that is a call of the tool [n] with input [i]. *)
Definition tool_use (n : string) (i : gmap string value) : ContentBlock :=
  {| block_name := Some n; block_input := Some i |}.

(** The input fields a summary reads, by tool name. *)
Definition consulted (n : string) : list string :=
  if decide (n = "Read") then ["file_path"]
  else if decide (n = "Glob") then ["pattern"]
  else if decide (n = "Grep") then ["pattern"; "path"]
  else [].

(** A parsed object that carries a [toString] property of its own. *)
Definition shadowed : value := VObject {[ "toString" := VNumber (NInt 1) ]}.

(** A call of the file-read tool whose [file_path] is such an object. *)
Definition read_shadowed : ToolUseBlock :=
  {| name := "Read"; input := {[ "file_path" := shadowed ]} |}.

(** The issues of the documented examples, and one whose line is 0. *)
Definition issue_a : gmap string value :=
  <[ "file" := VString "a.ts" ]> {[ "line" := VNumber (NInt 42) ]}.
Definition issue_b : gmap string value := {[ "file" := VString "b.ts" ]}.
Definition issue_zero : gmap string value :=
  <[ "file" := VString "a.ts" ]> {[ "line" := VNumber (NInt 0) ]}.

(** A bucket as the claim describes it: the issues of one severity, in the
    order of the list. *)
Definition bucket (sev : string) (issues : list value) : list value :=
  List.filter (has_severity sev) issues.

(** Whether an issue has one of the four severities. *)
Definition bucketed (i : value) : bool :=
  existsb (λ sev, has_severity sev i) severities.

(** The six lines that open the report. *)
Definition report_opening (r : ReviewResult) : list string :=
  [nl ++ String_repeat "=" 50;
   "📊 REVIEW RESULTS";
   String_repeat "=" 50 ++ nl;
   "Score: " ++ Number_toString (overallScore r) ++ "/100";
   "Issues Found: " ++ nat_toString (length (issues r)) ++ nl;
   "Summary: " ++ summary r ++ nl].

(** An issue with a severity outside the four, and a payload that holds it. *)
Definition info_issue : value :=
  VObject (<[ "severity" := VString "info" ]> {[ "file" := VString "a.ts" ]}).
Definition info_payload : value :=
  VObject (<[ "issues" := VArray [info_issue] ]>
           (<[ "summary" := VString "s" ]>
            {[ "overallScore" := VNumber (NInt 1) ]})).

(** ** Vocabulary of the loop *)

(** A terminal message. *)
Definition is_result (m : SDKMessage) : bool :=
  match m with
  | SDKResultMessage _ _ _ => true
  | _ => false
  end.

(** The payload the loop records for a message: that of a terminal message
    with success status whose payload is present and passes the guard. *)
Definition accepted (m : SDKMessage) : option value :=
  match m with
  | SDKResultMessage subtype payload _ =>
      if decide (subtype = "success") then
        if ToBoolean payload then
          match isValidReviewResult payload with
          | Normal true => Some payload
          | _ => None
          end
        else None
      else None
  | _ => None
  end.

(** The failure line of a terminal message that is not recorded. *)
Definition failure_line (subtype : string) (payload : value) : string :=
  if decide (subtype = "success") then
    if ToBoolean payload then
      nl ++ "❌ Review failed: Invalid response structure"
    else nl ++ "❌ Review failed: " ++ subtype
  else nl ++ "❌ Review failed: " ++ subtype.

(** A content block whose progress line can be written: the input fields
    that the line shows are convertible to text. *)
Definition block_renders (b : ContentBlock) : bool :=
  match block_name b, block_input b with
  | Some n, Some i =>
      if decide (n = "Task") then convertible (prop i "subagent_type")
      else forallb (λ key, convertible (prop i key)) (consulted n)
  | _, _ => true
  end.

Definition renders (m : SDKMessage) : bool :=
  match m with
  | SDKAssistantMessage content => forallb block_renders content
  | _ => true
  end.

(** The terminal message, when there is one, is the last message of the
    stream. *)
Definition terminal_last (events : list SDKMessage) : Prop :=
  ∀ pre m post, events = (pre ++ m :: post)%list → is_result m = true → post = [].

(** The four lines [runCodeReview] logs before it opens the session. *)
Definition review_banner (directory : string) : list string :=
  [nl ++ String_repeat "=" 50;
   "🔍 Code Review Agent";
   "📁 Directory: " ++ directory;
   String_repeat "=" 50 ++ nl].


Definition stream_shadowed_no_terminal : EventStream :=
  {| events := [SDKAssistantMessage
                  [tool_use "Glob" {[ "pattern" := shadowed ]}]];
     failure := None |}.

(** A stream of two progress messages and no terminal message. *)
Definition stream_progress_only : EventStream :=
  {| events := [SDKOtherMessage "system";
                SDKAssistantMessage
                  [tool_use "Read" {[ "file_path" := VString "x.ts" ]}]];
     failure := None |}.

(** A stand-in for [toFixed] in runs that log no cost. *)
Definition toFixed_unused : number → string := λ _, "0.0000".

(** The payload of the documented end-to-end scenario. *)
Definition secret_issue : value :=
  VObject (<[ "severity" := VString "critical" ]>
           (<[ "category" := VString "security" ]>
            (<[ "file" := VString "auth.ts" ]>
             {[ "description" := VString "hardcoded secret" ]}))).
Definition secret_payload : value :=
  VObject (<[ "issues" := VArray [secret_issue] ]>
           (<[ "summary" := VString "1 issue found" ]>
            {[ "overallScore" := VNumber (NInt 60) ]})).
Definition secret_result : ReviewResult :=
  {| issues := [secret_issue]; summary := "1 issue found";
     overallScore := NInt 60 |}.

(** ** The output contract (lines 18-40)

    [reviewSchema] is data: the program hands it to the SDK as the shape the
    agent's structured output is asked to have.  It uses five keywords of
    JSON Schema: type, enum, items, properties, required. *)

Inductive Schema : Type :=
| SchemaString (enum : option (list string))
| SchemaNumber
| SchemaArray (items : Schema)
| SchemaObject (properties : list (string * Schema)) (required : list string).

Definition issueSchema : Schema :=
  SchemaObject
    [("severity", SchemaString (Some ["low"; "medium"; "high"; "critical"]));
     ("category",
      SchemaString (Some ["bug"; "security"; "performance"; "style"]));
     ("file", SchemaString None);
     ("line", SchemaNumber);
     ("description", SchemaString None);
     ("suggestion", SchemaString None)]
    ["severity"; "category"; "file"; "description"].

Definition reviewSchema : Schema :=
  SchemaObject
    [("issues", SchemaArray issueSchema);
     ("summary", SchemaString None);
     ("overallScore", SchemaNumber)]
    ["issues"; "summary"; "overallScore"].

(** What the keywords ask of a value: [type] fixes the kind of value (an
    array and null are not of type object), [enum] lists the strings allowed,
    [items] holds for every element, a schema under [properties] holds for
    the property when the object has it, and every key under [required] is a
    property of the object.  Other properties are allowed. *)
Fixpoint conforms (s : Schema) (v : value) : bool :=
  match s, v with
  | SchemaString enum, VString t =>
      match enum with
      | Some allowed => bool_decide (t ∈ allowed)
      | None => true
      end
  | SchemaNumber, VNumber _ => true
  | SchemaArray items, VArray elems => forallb (conforms items) elems
  | SchemaObject properties required, VObject o =>
      forallb (λ entry : string * Schema,
                 match o !! entry.1 with
                 | Some w => conforms entry.2 w
                 | None => true
                 end) properties
      && forallb (λ key, bool_decide (is_Some (o !! key))) required
  | _, _ => false
  end.

(** ** The directory and the entry point (lines 52-61, 193-215) *)

(** What is at a path, seen through symbolic links. *)
Inductive FileKind : Type :=
| Directory
| NotDirectory.

(** [error.message] *)
Definition error_message (e : error) : string :=
  match e with
  | TypeError msg => msg
  | SessionError msg => msg
  end.

(** What a run of the program leaves: the lines of [console.log], the lines
    of [console.error], and the exit code. *)
Record Process : Type := {
  stdout : list string;
  stderr : list string;
  exit_code : nat
}.

Section Main.

Variable Number_toFixed4 : number → string.

(** [path.resolve(p)]: the absolute, normalised form of [p]. *)
Variable path_resolve : string → string.

(** The file system at the time of the call: what is at an absolute path,
    if anything.  [fs.existsSync(p)] is whether something is there, and
    [fs.statSync(p).isDirectory()] whether it is a directory. *)
Variable file_system : string → option FileKind.

(** [fs.existsSync(p)] *)
Definition existsSync (p : string) : bool :=
  match file_system p with
  | Some _ => true
  | None => false
  end.

(** [fs.statSync(p).isDirectory()], for a path that exists. *)
Definition isDirectory (p : string) : bool :=
  match file_system p with
  | Some Directory => true
  | _ => false
  end.

(** Lines 52-61.  [inl p] is [return p]; [inr msg] is
    [throw new Error(msg)]. *)
Definition validateDirectory (directory : string) : string + string :=
  let resolvedPath := path_resolve directory in
  if negb (existsSync resolvedPath) then
    inr ("Directory does not exist: " ++ resolvedPath)
  else if negb (isDirectory resolvedPath) then
    inr ("Path is not a directory: " ++ resolvedPath)
  else inl resolvedPath.

(** Lines 205-209.  The slot is typed [ReviewResult | null]: what is in it
    was put there after the guard, and [printResults] reads it at that
    type.  The branch for a payload that does not read at that type is never
    taken. *)
Definition review_and_report (validatedDirectory : string)
           (stream : EventStream) : JS unit :=
  result ← runCodeReview Number_toFixed4 validatedDirectory stream;
  match result with
  | Some payload =>
      match as_ReviewResult payload with
      | Some r => printResults r
      | None => MkJS [] (Throw (TypeError "not a ReviewResult"))
      end
  | None => mret tt
  end.

(** Line 195: [process.argv[2] || "."], where [argv2] is [process.argv[2]];
    [a || b] takes [b] for a missing and for an empty argument. *)
Definition directory_argument (argv2 : option string) : string :=
  match argv2 with
  | Some a => if String.eqb a EmptyString then "." else a
  | None => "."
  end.

(** Lines 193-215.  Both handlers print the message of the error after
    Error: and exit with code 1. *)
Definition main (argv2 : option string) (stream : EventStream) : Process :=
  let directory := directory_argument argv2 in
  match validateDirectory directory with
  | inr message =>
      {| stdout := []; stderr := ["Error: " ++ message]; exit_code := 1 |}
  | inl validatedDirectory =>
      let run := review_and_report validatedDirectory stream in
      match outcome run with
      | Normal _ => {| stdout := console run; stderr := []; exit_code := 0 |}
      | Throw e =>
          {| stdout := console run;
             stderr := ["Error: " ++ error_message e];
             exit_code := 1 |}
      end
  end.

End Main.

(** ** Vocabulary of the further statements *)

(** A content block the loop reads as a tool call. *)
Definition is_tool_use (b : ContentBlock) : bool :=
  match block_name b, block_input b with
  | Some _, Some _ => true
  | _, _ => false
  end.

(** The slot after a run of messages, by the last payload recorded. *)
Definition last_accepted (messages : list SDKMessage) (slot : option value)
  : option value :=
  fold_left (λ s m, match accepted m with Some p => Some p | None => s end)
            messages slot.

(** A logged line that opens an issue: a line break and a bracket. *)
Definition is_issue_line (line : string) : bool :=
  starts_with (nl ++ "[") line.

(** How many of the logged lines open an issue. *)
Definition issue_line_count (lines : list string) : nat :=
  length (List.filter is_issue_line lines).

(** The properties of the issue of the end-to-end scenario. *)
Definition secret_issue_props : gmap string value :=
  <[ "severity" := VString "critical" ]>
    (<[ "category" := VString "security" ]>
      (<[ "file" := VString "auth.ts" ]>
        {[ "description" := VString "hardcoded secret" ]})).

(** The suggestion line of an issue, when it has one. *)
Definition suggestion_lines (o : gmap string value) : list string :=
  match o !! "suggestion" with
  | Some (VString s) =>
      if String.eqb s EmptyString then [] else ["  💡 " ++ s]
  | _ => []
  end.

(** A file system with one directory, and a way to resolve paths. *)
Definition resolve_in_root (p : string) : string := "/" ++ p.
Definition only_src (p : string) : option FileKind :=
  if String.eqb p "/src" || String.eqb p "/." then Some Directory
  else if String.eqb p "/a.ts" then Some NotDirectory
  else None.

(** An issue that can be printed: it is not undefined or null, and when it
    is an object the five properties that [print_issue] may show are
    convertible to text. *)
Definition printable (i : value) : bool :=
  match i with
  | VUndefined => false
  | VNull => false
  | VObject o =>
      forallb (λ key, convertible (prop o key))
              ["line"; "file"; "category"; "description"; "suggestion"]
  | _ => true
  end.

(** A critical issue whose category has no text, a low issue, and the
    payloads that hold the first before the second, and the second before
    null. *)
Definition unprintable_issue : value :=
  VObject (<[ "severity" := VString "critical" ]>
           (<[ "category" := shadowed ]>
            (<[ "file" := VString "a.ts" ]>
             {[ "description" := VString "d" ]}))).
Definition low_issue : value :=
  VObject (<[ "severity" := VString "low" ]>
           (<[ "category" := VString "style" ]>
            (<[ "file" := VString "b.ts" ]>
             {[ "description" := VString "e" ]}))).
Definition cut_short_payload : value :=
  VObject (<[ "issues" := VArray [unprintable_issue; low_issue] ]>
           (<[ "summary" := VString "s" ]>
            {[ "overallScore" := VNumber (NInt 1) ]})).
Definition cut_short_result : ReviewResult :=
  {| issues := [unprintable_issue; low_issue]; summary := "s";
     overallScore := NInt 1 |}.
Definition low_then_null_payload : value :=
  VObject (<[ "issues" := VArray [low_issue; VNull] ]>
           (<[ "summary" := VString "s" ]>
            {[ "overallScore" := VNumber (NInt 1) ]})).
Definition low_then_null_result : ReviewResult :=
  {| issues := [low_issue; VNull]; summary := "s"; overallScore := NInt 1 |}.

(** * Properties *)

Section Validator.

Lemma typeof_string (v : value) :
  String.eqb (typeof v) "string" = true ↔ ∃ s, v = VString s.
Proof.
  split.
  - destruct v; simpl; try discriminate. eauto.
  - intros [s ->]. reflexivity.
Qed.

Lemma typeof_number (v : value) :
  String.eqb (typeof v) "number" = true ↔ ∃ n, v = VNumber n.
Proof.
  split.
  - destruct v; simpl; try discriminate. eauto.
  - intros [n ->]. reflexivity.
Qed.

Lemma Array_isArray_true (v : value) :
  Array_isArray v = true ↔ ∃ elems, v = VArray elems.
Proof.
  split.
  - destruct v; simpl; try discriminate. eauto.
  - intros [l ->]. reflexivity.
Qed.

Lemma prop_Some (o : gmap string value) (k : string) (v : value) :
  v ≠ VUndefined → (prop o k = v ↔ o !! k = Some v).
Proof.
  intros Hv. unfold prop. destruct (o !! k) as [w|]; simpl.
  - split; [intros ->; reflexivity | intros [= ->]; reflexivity].
  - split; [intros <-; contradiction | discriminate].
Qed.

Lemma isValidReviewResult_total (P : value) :
  isValidReviewResult P = Normal true ∨ isValidReviewResult P = Normal false.
Proof.
  unfold isValidReviewResult.
  destruct P; simpl; auto.
  destruct (Array_isArray _); simpl; auto.
  destruct (String.eqb (typeof (prop props "summary")) _); simpl; auto.
  destruct (String.eqb (typeof (prop props "overallScore")) _); simpl; auto.
Qed.

Lemma isValidReviewResult_object (o : gmap string value) :
  isValidReviewResult (VObject o) =
  Normal (Array_isArray (prop o "issues")
          && String.eqb (typeof (prop o "summary")) "string"
          && String.eqb (typeof (prop o "overallScore")) "number").
Proof.
  unfold isValidReviewResult. simpl.
  destruct (Array_isArray _); simpl; auto.
  destruct (String.eqb (typeof (prop o "summary")) _); simpl; auto.
  destruct (String.eqb (typeof (prop o "overallScore")) _); simpl; auto.
Qed.

(** C1: the guard answers true exactly on a non-null object whose [issues] is
    an array, whose [summary] is a string and whose [overallScore] is a
    number; on every other payload it answers false (it never throws); and
    the answer does not depend on what the [issues] array holds. *)
Theorem isValidReviewResult_shape (P : value) :
  (isValidReviewResult P = Normal true ↔
     ∃ (o : gmap string value) (elems : list value) (s : string) (n : number),
       P = VObject o
       ∧ o !! "issues" = Some (VArray elems)
       ∧ o !! "summary" = Some (VString s)
       ∧ o !! "overallScore" = Some (VNumber n))
  ∧ (isValidReviewResult P = Normal true ∨ isValidReviewResult P = Normal false)
  ∧ (∀ (o : gmap string value) (elems elems' : list value),
       isValidReviewResult (VObject (<["issues" := VArray elems]> o)) =
       isValidReviewResult (VObject (<["issues" := VArray elems']> o))).
Proof.
  split; [|split].
  - split.
    + destruct P; try (unfold isValidReviewResult; simpl; discriminate).
      rewrite isValidReviewResult_object. intros [= H].
      apply andb_prop in H as [H Hn]. apply andb_prop in H as [Ha Hs].
      apply Array_isArray_true in Ha as [elems Ha].
      apply typeof_string in Hs as [s Hs].
      apply typeof_number in Hn as [n Hn].
      exists props, elems, s, n.
      rewrite <- !prop_Some by discriminate. auto.
    + intros (o & elems & s & n & -> & Hi & Hs & Hn).
      rewrite isValidReviewResult_object.
      apply prop_Some in Hi, Hs, Hn; try discriminate.
      rewrite Hi, Hs, Hn. reflexivity.
  - apply isValidReviewResult_total.
  - intros o elems elems'. rewrite !isValidReviewResult_object.
    unfold prop. rewrite !lookup_insert_eq.
    rewrite !lookup_insert_ne by discriminate. reflexivity.
Qed.

End Validator.

(** ** The console monad *)

Section Console.

Context {A B : Type}.

Lemma console_bind (m : JS A) (f : A → JS B) :
  console (m ≫= f) =
  (console m ++ match outcome m with
                | Normal a => console (f a)
                | Throw _ => []
                end)%list.
Proof.
  unfold mbind, JS_bind. destruct (outcome m); simpl; [reflexivity|].
  symmetry. apply app_nil_r.
Qed.

Lemma outcome_bind (m : JS A) (f : A → JS B) :
  outcome (m ≫= f) =
  match outcome m with
  | Normal a => outcome (f a)
  | Throw e => Throw e
  end.
Proof. unfold mbind, JS_bind. destruct (outcome m); reflexivity. Qed.

Lemma eval_bind (c : completion A) (f : A → JS B) :
  eval c ≫= f =
  match c with
  | Normal a => f a
  | Throw e => MkJS [] (Throw e)
  end.
Proof.
  unfold mbind, JS_bind, eval. simpl. destruct c; [|reflexivity].
  destruct (f a); reflexivity.
Qed.

End Console.

Lemma JS_bind_assoc {A B C : Type} (m : JS A) (f : A → JS B) (g : B → JS C) :
  (m ≫= f) ≫= g = m ≫= (λ a, f a ≫= g).
Proof.
  destruct m as [out [a|e]]; [|reflexivity].
  unfold mbind, JS_bind. simpl. destruct (f a) as [out' [b|e]]; simpl.
  - rewrite app_assoc. reflexivity.
  - reflexivity.
Qed.

Lemma JS_bind_ext {A B : Type} (m : JS A) (f g : A → JS B) :
  (∀ a, f a = g a) → m ≫= f = m ≫= g.
Proof.
  intros H. unfold mbind, JS_bind. destruct (outcome m); [|reflexivity].
  rewrite H. reflexivity.
Qed.

Lemma JS_bind_assoc_Normal {A B : Type} (lines : list string) (a : A)
      (f : A → JS B) :
  MkJS lines (Normal a) ≫= f
  = MkJS (lines ++ console (f a)) (outcome (f a)).
Proof. reflexivity. Qed.

Lemma JS_ret_bind {A B : Type} (a : A) (f : A → JS B) :
  mret a ≫= f = f a.
Proof. unfold mbind, mret, JS_bind, JS_ret. simpl. destruct (f a). reflexivity. Qed.

(** ** Conversion to text *)

Section Conversion.

Lemma value_ind_arrays (P : value → Prop) :
  P VUndefined → P VNull → (∀ b, P (VBool b)) → (∀ n, P (VNumber n)) →
  (∀ s, P (VString s)) → (∀ l, Forall P l → P (VArray l)) →
  (∀ o, P (VObject o)) → ∀ v, P v.
Proof.
  intros Hu Hn Hb Hnum Hs Ha Ho.
  fix IH 1.
  intros [| |b|n|s|l|o];
    [exact Hu | exact Hn | apply Hb | apply Hnum | apply Hs | | apply Ho].
  apply Ha. induction l as [|e l IHl]; constructor; [apply IH | apply IHl].
Qed.

(** [ToString] has a text exactly for the convertible values, and fails in
    one way only. *)
Lemma ToString_convertible (v : value) :
  if convertible v then ∃ s, ToString v = Normal s
  else ToString v = Throw cannot_convert.
Proof.
  induction v as [| |b|n|s|l IH|o] using value_ind_arrays; simpl; eauto.
  - destruct b; eauto.
  - induction IH as [|e l He _ IHl]; [eauto|].
    destruct (convertible e) eqn:Ce; simpl.
    + destruct He as [s He].
      assert (Hs : ∃ s', match e with
                         | VUndefined => Normal EmptyString
                         | VNull => Normal EmptyString
                         | _ => ToString e
                         end = Normal s')
        by (destruct e; eauto).
      destruct Hs as [s' ->]. simpl.
      destruct l as [|e' l']; [eauto|].
      match type of IHl with
      | if ?c then _ else _ => destruct c
      end.
      * destruct IHl as [r ->]. simpl. eauto.
      * rewrite IHl. reflexivity.
    + assert (Hs : match e with
                   | VUndefined => Normal EmptyString
                   | VNull => Normal EmptyString
                   | _ => ToString e
                   end = Throw cannot_convert)
        by (destruct e; solve [discriminate | exact He]).
      rewrite Hs. reflexivity.
  - case_bool_decide as Hd; case_decide as Hs; eauto.
    + rewrite Hd in Hs. destruct Hs as [? [=]].
    + destruct (o !! "toString") eqn:E; [exfalso; eauto | contradiction].
Qed.

Lemma ToString_total (v : value) :
  convertible v = true → ∃ s, ToString v = Normal s.
Proof. intros H. pose proof (ToString_convertible v) as C. rewrite H in C. exact C. Qed.

Lemma nullish_prop (i : gmap string value) (key fallback : string) :
  ToString (nullish (prop i key) (VString fallback)) = field_text i key fallback.
Proof.
  unfold field_text, prop. destruct (i !! key) as [v|]; simpl; [|reflexivity].
  destruct v; reflexivity.
Qed.

Lemma field_text_total (i : gmap string value) (key fallback : string) :
  convertible (prop i key) = true → ∃ s, field_text i key fallback = Normal s.
Proof.
  unfold field_text, prop. destruct (i !! key) as [v|]; simpl; [|eauto].
  intros H. destruct v; eauto using ToString_total.
Qed.

End Conversion.

(** ** Progress lines *)

Section Progress.

Lemma getToolSummary_documented (block : ToolUseBlock) :
  getToolSummary block = documented_summary block.
Proof.
  unfold getToolSummary, documented_summary. rewrite !nullish_prop.
  destruct (String.eqb_spec (name block) "Read") as [->|HR]; [reflexivity|].
  rewrite decide_False by exact HR.
  destruct (String.eqb_spec (name block) "Glob") as [->|HG]; [reflexivity|].
  rewrite decide_False by exact HG.
  destruct (String.eqb_spec (name block) "Grep") as [->|HP]; [reflexivity|].
  rewrite decide_False by exact HP. reflexivity.
Qed.

Lemma documented_summary_total (block : ToolUseBlock) :
  Forall (λ key, convertible (prop (input block) key) = true)
         (consulted (name block)) →
  ∃ s, documented_summary block = Normal s.
Proof.
  unfold documented_summary, consulted. intros H.
  repeat case_decide; try solve [eauto].
  - inversion_clear H. eauto using field_text_total.
  - inversion_clear H. eauto using field_text_total.
  - inversion_clear H as [|? ? Hp H']. inversion_clear H' as [|? ? Hr _].
    destruct (field_text_total (input block) "pattern" EmptyString Hp) as [p ->].
    destruct (field_text_total (input block) "path" "." Hr) as [r ->].
    simpl. eauto.
Qed.




Example getToolSummary_read :
  getToolSummary {| name := "Read";
                    input := {[ "file_path" := VString "x.ts" ]} |}
  = Normal "x.ts".
Proof. reflexivity. Qed.

Example getToolSummary_grep :
  getToolSummary
    {| name := "Grep";
       input := <[ "pattern" := VString "TODO" ]> {[ "path" := VString "src" ]} |}
  = Normal (dquote ++ "TODO" ++ dquote ++ " in src").
Proof. reflexivity. Qed.

Example getToolSummary_fallbacks :
  getToolSummary {| name := "Read"; input := ∅ |} = Normal "file"
  ∧ getToolSummary {| name := "Glob"; input := ∅ |} = Normal "pattern"
  ∧ getToolSummary {| name := "Grep"; input := ∅ |}
    = Normal (dquote ++ dquote ++ " in .")
  ∧ getToolSummary {| name := "Bash"; input := ∅ |} = Normal EmptyString.
Proof. repeat split. Qed.

Lemma progress_task (i : gmap string value) :
  progress (tool_use "Task" i) =
  match field_text i "subagent_type" "unknown" with
  | Normal who => MkJS ["🤖 Delegating to: " ++ who] (Normal tt)
  | Throw e => MkJS [] (Throw e)
  end.
Proof.
  unfold progress, tool_use. simpl. rewrite nullish_prop.
  unfold JS_bind. simpl.
  destruct (field_text i "subagent_type" "unknown"); reflexivity.
Qed.




End Progress.

(** ** The location of an issue *)

Section Location.

Lemma append_longer (f : string) (c : ascii) (t : string) :
  f ≠ f ++ String c t.
Proof.
  induction f as [|a f IH]; simpl; [discriminate|].
  intros [= H]. exact (IH H).
Qed.

Lemma location_object (o : gmap string value) :
  location (VObject o) =
  if ToBoolean (prop o "line") then
    f ← ToString (prop o "file");
    l ← ToString (prop o "line");
    Normal (VString (f ++ ":" ++ l))
  else Normal (prop o "file").
Proof. reflexivity. Qed.

Lemma print_issue_first (o : gmap string value) (c loc : string) :
  o !! "category" = Some (VString c) →
  location (VObject o) = Normal (VString loc) →
  ∃ rest, console (print_issue (VObject o))
          = (nl ++ "[" ++ c ++ "] " ++ loc) :: rest.
Proof.
  intros Hc Hl. unfold print_issue. rewrite Hl, eval_bind. cbv beta.
  rewrite console_bind. unfold eval at 1 2. cbn [console outcome app].
  replace (Get (VObject o) "category") with (Normal (VString c))
    by (simpl; unfold prop; rewrite Hc; reflexivity).
  cbn [mbind completion_bind ToString].
  rewrite console_bind. cbn [console_log console outcome app]. eauto.
Qed.

(** C7: for an issue whose [file] is a string, the location is that string
    alone when [line] is absent, and the string, a colon and the numeral of
    [line] when [line] is a positive integer; the issue is logged under that
    location. *)
Theorem location_file_line (o : gmap string value) (f : string) :
  o !! "file" = Some (VString f) →
  (o !! "line" = None → location (VObject o) = Normal (VString f))
  ∧ (∀ z, (0 < z)%Z → o !! "line" = Some (VNumber (NInt z)) →
       location (VObject o)
       = Normal (VString (f ++ ":" ++ NilZero.string_of_int (Z.to_int z))))
  ∧ (∀ c loc, o !! "category" = Some (VString c) →
       location (VObject o) = Normal (VString loc) →
       ∃ rest, console (print_issue (VObject o))
               = (nl ++ "[" ++ c ++ "] " ++ loc) :: rest).
Proof.
  intros Hf. rewrite location_object. unfold prop. rewrite Hf.
  split; [|split].
  - intros ->. reflexivity.
  - intros z Hz ->. simpl.
    destruct (Z.eqb_spec z 0) as [->|_]; [lia | reflexivity].
  - intros c loc Hc Hl. apply print_issue_first; [exact Hc|].
    rewrite location_object. unfold prop. rewrite Hf. exact Hl.
Qed.

Lemma location_file_line_witness :
  location (VObject issue_a) = Normal (VString "a.ts:42")
  ∧ location (VObject issue_b) = Normal (VString "b.ts").
Proof.
  split.
  - apply (proj1 (proj2 (location_file_line issue_a "a.ts" eq_refl)) 42%Z);
      [lia | reflexivity].
  - apply (proj1 (location_file_line issue_b "b.ts" eq_refl)). reflexivity.
Defined.

(** C10: for an issue whose [file] is a string, a [line] that is present and
    equal to 0 is not shown: the location is the file alone, without a colon
    and a 0.  Whenever the location has the form file, colon, text, the
    [line] passed the truthiness test, so it is not 0. *)
Theorem location_line_zero (o : gmap string value) (f : string) :
  o !! "file" = Some (VString f) →
  (o !! "line" = Some (VNumber (NInt 0)) →
     location (VObject o) = Normal (VString f)
     ∧ location (VObject o) ≠ Normal (VString (f ++ ":0")))
  ∧ (∀ t, location (VObject o) = Normal (VString (f ++ ":" ++ t)) →
          ToBoolean (prop o "line") = true
          ∧ o !! "line" ≠ Some (VNumber (NInt 0))).
Proof.
  intros Hf. rewrite location_object. split.
  - intros Hl. unfold prop. rewrite Hl, Hf. simpl. split; [reflexivity|].
    intros [= E]. destruct (append_longer f ":" "0" E).
  - intros t. destruct (ToBoolean (prop o "line")) eqn:T.
    + intros _. split; [reflexivity|]. intros E.
      unfold prop in T. rewrite E in T. discriminate.
    + unfold prop. rewrite Hf. simpl. intros [= E].
      destruct (append_longer f ":" t E).
Qed.

Lemma location_line_zero_witness :
  location (VObject issue_zero) = Normal (VString "a.ts").
Proof.
  apply (proj1 (location_line_zero issue_zero "a.ts" eq_refl)).
  reflexivity.
Defined.

End Location.

(** ** The buckets *)

Section Buckets.

Lemma as_ReviewResult_valid (P : value) :
  isValidReviewResult P = Normal true ↔ is_Some (as_ReviewResult P).
Proof.
  destruct P; try (split; [discriminate | intros [? [=]]]).
  rewrite isValidReviewResult_object. unfold as_ReviewResult.
  destruct (prop props "issues"), (prop props "summary"),
    (prop props "overallScore"); simpl;
    (split; [discriminate || eauto | (intros [? [=]]; fail) || reflexivity]).
Qed.

Lemma severity_is_readable (sev : string) (i : value) :
  readable i = true → severity_is sev i = Normal (has_severity sev i).
Proof.
  unfold severity_is, has_severity, severity_of.
  destruct i; simpl; try discriminate; intros _; try reflexivity.
  destruct (prop props "severity"); simpl; try reflexivity.
  f_equal. destruct (String.eqb_spec s sev) as [->|N].
  - rewrite bool_decide_eq_true_2; reflexivity.
  - rewrite bool_decide_eq_false_2; [reflexivity | congruence].
Qed.

Lemma severity_is_unreadable (sev : string) (i : value) :
  readable i = false → ∃ e, severity_is sev i = Throw e.
Proof. destruct i; simpl; try discriminate; eauto. Qed.

Lemma Array_filter_severity (sev : string) (l : list value) :
  match Array_filter (severity_is sev) l with
  | Normal b => forallb readable l = true ∧ b = bucket sev l
  | Throw _ => forallb readable l = false
  end.
Proof.
  induction l as [|x l IH]; simpl; [auto|].
  destruct (readable x) eqn:R.
  - rewrite (severity_is_readable sev x R). simpl.
    destruct (Array_filter (severity_is sev) l) as [b|e]; simpl; [|exact IH].
    destruct IH as [-> ->]. auto.
  - destruct (severity_is_unreadable sev x R) as [e ->]. reflexivity.
Qed.

Lemma byCategory_buckets (l : list value) :
  match byCategory l with
  | Normal b =>
      forallb readable l = true
      ∧ b = [("critical", bucket "critical" l); ("high", bucket "high" l);
             ("medium", bucket "medium" l); ("low", bucket "low" l)]
  | Throw _ => forallb readable l = false
  end.
Proof.
  unfold byCategory.
  pose proof (Array_filter_severity "critical" l) as C.
  pose proof (Array_filter_severity "high" l) as H.
  pose proof (Array_filter_severity "medium" l) as M.
  pose proof (Array_filter_severity "low" l) as L.
  destruct (Array_filter (severity_is "critical") l); simpl; [|exact C].
  destruct (Array_filter (severity_is "high") l); simpl; [|exact H].
  destruct (Array_filter (severity_is "medium") l); simpl; [|exact M].
  destruct (Array_filter (severity_is "low") l); simpl; [|exact L].
  destruct C as [R ->], H as [_ ->], M as [_ ->], L as [_ ->]. auto.
Qed.

Lemma bucket_sublist (sev : string) (l : list value) :
  sublist (bucket sev l) l.
Proof.
  induction l as [|x l IH]; simpl; [constructor|].
  unfold bucket in *. simpl.
  destruct (has_severity sev x); constructor; exact IH.
Qed.

Lemma bucket_severity (sev : string) (l : list value) :
  Forall (λ i, severity_of i = Some sev) (bucket sev l).
Proof.
  induction l as [|x l IH]; simpl; [constructor|].
  unfold bucket in *. simpl. destruct (has_severity sev x) eqn:E; [|exact IH].
  constructor; [|exact IH]. unfold has_severity in E.
  apply bool_decide_eq_true_1 in E. exact E.
Qed.

Lemma buckets_permutation (l : list value) :
  bucket "critical" l ++ bucket "high" l ++ bucket "medium" l ++ bucket "low" l
  ≡ₚ List.filter bucketed l.
Proof.
  induction l as [|x l IH]; [reflexivity|].
  unfold bucket, bucketed, severities, has_severity in *. simpl.
  destruct (severity_of x) as [sv|].
  - repeat case_bool_decide; simplify_eq; simpl;
      rewrite <- ?Permutation_middle; (constructor; exact IH) || exact IH.
  - rewrite !bool_decide_eq_false_2 by discriminate. simpl. exact IH.
Qed.

Lemma filter_all (f : value → bool) (l : list value) :
  Forall (λ i, f i = true) l → List.filter f l = l.
Proof.
  induction 1 as [|x l Hx _ IH]; simpl; [reflexivity|]. rewrite Hx, IH.
  reflexivity.
Qed.

Lemma filter_none (f : value → bool) (l : list value) :
  Forall (λ i, f i = false) l → List.filter f l = [].
Proof.
  induction 1 as [|x l Hx _ IH]; simpl; [reflexivity|]. rewrite Hx, IH.
  reflexivity.
Qed.

Lemma forallb_readable (l : list value) :
  Forall (λ i, readable i = true) l → forallb readable l = true.
Proof. induction 1 as [|x l Hx _ IH]; simpl; [|rewrite Hx, IH]; reflexivity. Qed.

(** C2, as the claim has it, fails: a payload with an issue of severity info
    passes the guard, and that issue lands in no bucket. *)
Lemma byCategory_drops_other_severity :
  isValidReviewResult info_payload = Normal true
  ∧ byCategory [info_issue]
    = Normal [("critical", []); ("high", []); ("medium", []); ("low", [])]
  ∧ ¬ (([] ++ [] ++ [] ++ [])%list ≡ₚ [info_issue]).
Proof.
  split; [vm_compute; reflexivity|]. split; [vm_compute; reflexivity|].
  simpl. apply Permutation_nil_cons.
Qed.

(** C2, amended: for a result whose issues are all other than undefined and
    null, the four buckets are, each in the order of [issues], the issues
    whose severity is the bucket's name; their concatenation holds every issue
    that has one of the four severities exactly once, and so is a permutation
    of [issues] when every issue has one of the four severities. *)
Theorem byCategory_partition (l : list value) :
  Forall (λ i, readable i = true) l →
  byCategory l
  = Normal [("critical", bucket "critical" l); ("high", bucket "high" l);
            ("medium", bucket "medium" l); ("low", bucket "low" l)]
  ∧ (∀ sev, sublist (bucket sev l) l
            ∧ Forall (λ i, severity_of i = Some sev) (bucket sev l)
            ∧ (∀ i, i ∈ l → severity_of i = Some sev → i ∈ bucket sev l))
  ∧ (bucket "critical" l ++ bucket "high" l ++ bucket "medium" l
       ++ bucket "low" l)%list ≡ₚ List.filter bucketed l
  ∧ (Forall (λ i, bucketed i = true) l →
     (bucket "critical" l ++ bucket "high" l ++ bucket "medium" l
        ++ bucket "low" l)%list ≡ₚ l).
Proof.
  intros R. repeat split.
  - pose proof (byCategory_buckets l) as B.
    rewrite (forallb_readable l R) in B.
    destruct (byCategory l); [|discriminate]. destruct B as [_ ->].
    reflexivity.
  - apply bucket_sublist.
  - apply bucket_severity.
  - intros i Hi Hs. unfold bucket. apply list_elem_of_In, filter_In.
    split; [apply list_elem_of_In; exact Hi|].
    unfold has_severity. apply bool_decide_eq_true_2. exact Hs.
  - apply buckets_permutation.
  - intros All. rewrite buckets_permutation, (filter_all _ _ All).
    reflexivity.
Qed.

Lemma byCategory_partition_witness :
  (bucket "critical" [VObject {[ "severity" := VString "low" ]};
                      VObject {[ "severity" := VString "critical" ]}]
   ++ bucket "high" [VObject {[ "severity" := VString "low" ]};
                     VObject {[ "severity" := VString "critical" ]}]
   ++ bucket "medium" [VObject {[ "severity" := VString "low" ]};
                       VObject {[ "severity" := VString "critical" ]}]
   ++ bucket "low" [VObject {[ "severity" := VString "low" ]};
                    VObject {[ "severity" := VString "critical" ]}])%list
  ≡ₚ [VObject {[ "severity" := VString "low" ]};
      VObject {[ "severity" := VString "critical" ]}].
Proof.
  apply byCategory_partition; repeat constructor.
Defined.

End Buckets.

(** ** The report *)

Section Report.

Lemma headers_app (a b : list string) :
  headers (a ++ b) = (headers a ++ headers b)%list.
Proof. apply List.filter_app. Qed.

Lemma headers_cons (line : string) (rest : list string) :
  headers (line :: rest) =
  if is_severity_header line then line :: headers rest else headers rest.
Proof. reflexivity. Qed.

Lemma headers_eval_bind {A : Type} (c : completion A) (k : A → JS unit) :
  (∀ a, c = Normal a → headers (console (k a)) = []) →
  headers (console (eval c ≫= k)) = [].
Proof.
  intros H. rewrite eval_bind. destruct c; [apply H|]; reflexivity.
Qed.

Lemma headers_log_bind (line : string) (k : JS unit) :
  is_severity_header line = false →
  headers (console k) = [] →
  headers (console (console_log line ;; k)) = [].
Proof.
  intros Hl Hk. rewrite console_bind. cbn [console_log console outcome app].
  rewrite headers_cons, Hl. exact Hk.
Qed.

Lemma print_issue_headers (i : value) :
  headers (console (print_issue i)) = [].
Proof.
  unfold print_issue.
  apply headers_eval_bind. intros loc _.
  apply headers_eval_bind. intros first Hfirst.
  apply headers_log_bind.
  { destruct (Get i "category"); simpl in Hfirst; [|discriminate].
    destruct (ToString a); simpl in Hfirst; [|discriminate].
    destruct (ToString loc); simpl in Hfirst; [|discriminate].
    injection Hfirst as <-. reflexivity. }
  apply headers_eval_bind. intros second Hsecond.
  apply headers_log_bind.
  { destruct (Get i "description"); simpl in Hsecond; [|discriminate].
    destruct (ToString a); simpl in Hsecond; [|discriminate].
    injection Hsecond as <-. reflexivity. }
  apply headers_eval_bind. intros suggestion _.
  destruct (ToBoolean suggestion); [|reflexivity].
  apply headers_eval_bind. intros third Hthird.
  destruct (Get i "suggestion"); simpl in Hthird; [|discriminate].
  destruct (ToString a); simpl in Hthird; [|discriminate].
  injection Hthird as <-. reflexivity.
Qed.

Lemma for_of_print_issue_headers (l : list value) :
  headers (console (for_of l print_issue)) = [].
Proof.
  induction l as [|i l IH]; [reflexivity|].
  simpl for_of. rewrite console_bind, headers_app, print_issue_headers.
  destruct (outcome (print_issue i)); [exact IH | reflexivity].
Qed.

Lemma severity_header_is_header (sev : string) (n : nat) :
  is_severity_header (severity_header sev n) = true.
Proof.
  unfold severity_header, icon_of.
  destruct (String.eqb sev "critical"); [reflexivity|].
  destruct (String.eqb sev "high"); [reflexivity|].
  destruct (String.eqb sev "medium"); reflexivity.
Qed.

(** A bucket logs its header, and no other header, exactly when it has an
    issue; this holds also when one of its issues throws. *)
Lemma print_bucket_headers (sev : string) (b : list value) :
  headers (console (print_bucket (sev, b))) =
  if (length b =? 0)%nat then [] else [severity_header sev (length b)].
Proof.
  unfold print_bucket. destruct (length b =? 0)%nat; [reflexivity|].
  rewrite console_bind. cbn [console_log console outcome app].
  rewrite headers_cons, severity_header_is_header. f_equal.
  apply headers_log_bind; [reflexivity|]. apply for_of_print_issue_headers.
Qed.

Lemma print_bucket_empty (sev : string) :
  print_bucket (sev, []) = mret tt.
Proof. reflexivity. Qed.

Lemma for_of_headers {A : Type} (body : A → JS unit) (l : list A) :
  headers (console (for_of l body))
    `prefix_of` flat_map (λ x, headers (console (body x))) l
  ∧ (outcome (for_of l body) = Normal tt →
     headers (console (for_of l body))
     = flat_map (λ x, headers (console (body x))) l).
Proof.
  induction l as [|x l [IHp IHe]]; [split; reflexivity|].
  simpl for_of. rewrite console_bind, outcome_bind, headers_app.
  cbn [flat_map]. destruct (outcome (body x)) as [[]|e].
  - split.
    + apply prefix_app. exact IHp.
    + intros H. f_equal. exact (IHe H).
  - split; [|discriminate]. simpl. rewrite app_nil_r.
    apply prefix_app_r. reflexivity.
Qed.

Lemma report_opening_headers (r : ReviewResult) :
  headers (report_opening r) = [].
Proof. reflexivity. Qed.

Lemma printResults_console (r : ReviewResult) :
  console (printResults r) =
  (report_opening r
   ++ console (buckets ← eval (byCategory (issues r));
               for_of buckets print_bucket))%list.
Proof.
  unfold printResults. rewrite !console_bind. reflexivity.
Qed.

Lemma printResults_outcome (r : ReviewResult) :
  outcome (printResults r) =
  outcome (buckets ← eval (byCategory (issues r));
           for_of buckets print_bucket).
Proof.
  unfold printResults. rewrite !outcome_bind. reflexivity.
Qed.

(** C8: the report opens with its banner, then the score as the text of
    [overallScore] followed by /100, whatever the number (150 and -5 are
    printed as they are), then the number of issues, then the summary; the
    buckets come after these lines. *)
Theorem printResults_opening (r : ReviewResult) :
  console (printResults r) =
  List.app
    [nl ++ String_repeat "=" 50;
     "📊 REVIEW RESULTS";
     String_repeat "=" 50 ++ nl;
     "Score: " ++ Number_toString (overallScore r) ++ "/100";
     "Issues Found: " ++ nat_toString (length (issues r)) ++ nl;
     "Summary: " ++ summary r ++ nl]
    (console (buckets ← eval (byCategory (issues r));
              for_of buckets print_bucket))
  ∧ headers (report_opening r) = []
  ∧ (∀ z, Number_toString (NInt z) = NilZero.string_of_int (Z.to_int z))
  ∧ console (printResults {| issues := issues r; summary := summary r;
                             overallScore := NInt 150 |}) !! 3%nat
    = Some "Score: 150/100"
  ∧ console (printResults {| issues := issues r; summary := summary r;
                             overallScore := NInt (-5) |}) !! 3%nat
    = Some "Score: -5/100".
Proof.
  split; [apply printResults_console|].
  split; [apply report_opening_headers|].
  split; [reflexivity|].
  rewrite !printResults_console. split; reflexivity.
Qed.

Lemma due_headers_buckets (l : list value) :
  due_headers l =
  flat_map (λ e, headers (console (print_bucket e)))
           [("critical", bucket "critical" l); ("high", bucket "high" l);
            ("medium", bucket "medium" l); ("low", bucket "low" l)].
Proof.
  unfold due_headers, severities. cbn [flat_map].
  rewrite !print_bucket_headers. reflexivity.
Qed.

Lemma low_only_buckets (l : list value) :
  Forall (λ i, severity_of i = Some "low") l →
  byCategory l
  = Normal [("critical", []); ("high", []); ("medium", []); ("low", l)].
Proof.
  intros L.
  assert (R : Forall (λ i, readable i = true) l).
  { eapply Forall_impl; [exact L|]. intros [] H; try discriminate; reflexivity. }
  pose proof (byCategory_buckets l) as B.
  rewrite (forallb_readable l R) in B.
  destruct (byCategory l); [|discriminate]. destruct B as [_ ->].
  unfold bucket.
  rewrite (filter_all (has_severity "low") l).
  2:{ eapply Forall_impl; [exact L|]. intros i H. unfold has_severity.
      rewrite H. reflexivity. }
  rewrite !(filter_none _ l); [reflexivity|..];
    (eapply Forall_impl; [exact L|]; intros i H; unfold has_severity;
     rewrite H; reflexivity).
Qed.

Lemma print_issue_printable (o : gmap string value) :
  printable (VObject o) = true →
  outcome (print_issue (VObject o)) = Normal tt.
Proof.
  cbn [printable forallb]. rewrite !andb_true_iff.
  intros (Cl & Cf & Cc & Cd & Cs & _).
  destruct (ToString_total _ Cl) as [tl Tl].
  destruct (ToString_total _ Cf) as [tf Tf].
  destruct (ToString_total _ Cc) as [tc Tc].
  destruct (ToString_total _ Cd) as [td Td].
  destruct (ToString_total _ Cs) as [ts Ts].
  assert (L : ∃ loc tloc, location (VObject o) = Normal loc
                          ∧ ToString loc = Normal tloc).
  { rewrite location_object. destruct (ToBoolean (prop o "line")).
    - rewrite Tf, Tl. cbn [mbind completion_bind]. eauto.
    - eauto. }
  destruct L as (loc & tloc & L & Tloc).
  unfold print_issue. rewrite L, eval_bind. cbv beta.
  cbn [Get mbind completion_bind]. rewrite Tc. cbn [mbind completion_bind].
  rewrite Tloc. cbn [mbind completion_bind]. rewrite Td.
  cbn [mbind completion_bind].
  rewrite eval_bind, outcome_bind. cbn [console_log outcome].
  rewrite eval_bind, outcome_bind. cbn [console_log outcome].
  rewrite eval_bind.
  destruct (ToBoolean (prop o "suggestion")); [|reflexivity].
  rewrite Ts. cbn [mbind completion_bind]. rewrite eval_bind. reflexivity.
Qed.

Lemma for_of_outcome {A : Type} (body : A → JS unit) (l : list A) :
  Forall (λ x, outcome (body x) = Normal tt) l →
  outcome (for_of l body) = Normal tt.
Proof.
  induction 1 as [|x l Hx _ IH]; [reflexivity|].
  cbn [for_of]. rewrite outcome_bind, Hx. exact IH.
Qed.

Lemma print_bucket_printable (sev : string) (l : list value) :
  Forall (λ i, printable i = true) l →
  outcome (print_bucket (sev, bucket sev l)) = Normal tt.
Proof.
  intros P. unfold print_bucket.
  destruct (length (bucket sev l) =? 0)%nat; [reflexivity|].
  rewrite !outcome_bind. cbn [console_log outcome].
  apply for_of_outcome.
  pose proof (bucket_severity sev l) as S.
  assert (Q : Forall (λ i, printable i = true) (bucket sev l)).
  { unfold bucket. clear S. induction P as [|x l Hx _ IH]; cbn;
      [constructor|]. destruct (has_severity sev x); [constructor|];
      assumption. }
  induction S as [|i b Hi _ IH]; [constructor|].
  inversion_clear Q as [|? ? Qi Qb]. constructor; [|apply IH; exact Qb].
  destruct i; try discriminate Hi. apply print_issue_printable. exact Qi.
Qed.

Lemma printResults_printable (r : ReviewResult) :
  Forall (λ i, printable i = true) (issues r) →
  outcome (printResults r) = Normal tt.
Proof.
  intros P. rewrite printResults_outcome.
  assert (R : Forall (λ i, readable i = true) (issues r)).
  { eapply Forall_impl; [exact P|]. intros [] H; try discriminate;
      reflexivity. }
  pose proof (byCategory_buckets (issues r)) as B.
  rewrite (forallb_readable _ R) in B.
  destruct (byCategory (issues r)) as [b|]; [|discriminate].
  destruct B as [_ ->]. rewrite eval_bind. apply for_of_outcome.
  repeat constructor; apply print_bucket_printable; exact P.
Qed.

(** C3, as the claim has it, fails: in a result that the guard accepts, a
    critical issue whose category has no text stops the report after the
    header of critical, so the bucket of low, which is not empty, gets no
    header; and a null after a low issue stops the report before any
    header. *)
Lemma printResults_header_missing :
  isValidReviewResult cut_short_payload = Normal true
  ∧ as_ReviewResult cut_short_payload = Some cut_short_result
  ∧ due_headers (issues cut_short_result)
    = [severity_header "critical" 1; severity_header "low" 1]
  ∧ headers (console (printResults cut_short_result))
    = [severity_header "critical" 1]
  ∧ outcome (printResults cut_short_result) = Throw cannot_convert
  ∧ isValidReviewResult low_then_null_payload = Normal true
  ∧ as_ReviewResult low_then_null_payload = Some low_then_null_result
  ∧ headers (console (printResults low_then_null_result)) = [].
Proof. repeat split; vm_compute; reflexivity. Qed.

(** C3, amended: for a result whose issues can all be printed, the report
    completes and its bucket headers are logged in the order critical, high,
    medium, low, one for each severity that has an issue and none for a
    severity that has none: an empty bucket logs nothing.  The same holds
    whenever the report completes, and a report that is cut short by an
    exception has logged a prefix of these headers.  A result that has
    issues, all of severity low, has exactly one header, the one of low. *)
Theorem printResults_headers (r : ReviewResult) :
  headers (console (printResults r)) `prefix_of` due_headers (issues r)
  ∧ (outcome (printResults r) = Normal tt →
     headers (console (printResults r)) = due_headers (issues r))
  ∧ (Forall (λ i, printable i = true) (issues r) →
     outcome (printResults r) = Normal tt
     ∧ headers (console (printResults r)) = due_headers (issues r))
  ∧ (∀ sev, console (print_bucket (sev, [])) = [])
  ∧ (issues r ≠ [] →
     Forall (λ i, severity_of i = Some "low") (issues r) →
     headers (console (printResults r))
     = [severity_header "low" (length (issues r))]).
Proof.
  assert (E : outcome (printResults r) = Normal tt →
              headers (console (printResults r)) = due_headers (issues r)).
  { rewrite printResults_outcome, printResults_console, headers_app,
      report_opening_headers, eval_bind. cbn [app].
    pose proof (byCategory_buckets (issues r)) as B.
    destruct (byCategory (issues r)) as [b|e]; [|discriminate].
    destruct B as [_ ->]. rewrite due_headers_buckets. apply for_of_headers. }
  split; [|split; [exact E|split; [|split]]].
  - rewrite printResults_console, headers_app, report_opening_headers,
      eval_bind. cbn [app].
    pose proof (byCategory_buckets (issues r)) as B.
    destruct (byCategory (issues r)) as [b|e]; [|apply prefix_nil].
    destruct B as [_ ->]. rewrite due_headers_buckets. apply for_of_headers.
  - intros P. pose proof (printResults_printable r P) as O. auto.
  - reflexivity.
  - clear E. intros N L.
    rewrite printResults_console, headers_app, report_opening_headers,
      eval_bind. cbn [app]. rewrite (low_only_buckets _ L).
    cbn [for_of]. rewrite !print_bucket_empty, !JS_ret_bind.
    rewrite console_bind, headers_app, print_bucket_headers.
    destruct (issues r) as [|i l]; [contradiction|].
    cbn [length Nat.eqb]. destruct (outcome _); reflexivity.
Qed.

Lemma printResults_headers_witness :
  (outcome (printResults secret_result) = Normal tt
   ∧ headers (console (printResults secret_result))
     = due_headers (issues secret_result))
  ∧ headers (console (printResults
      {| issues := [VObject {[ "severity" := VString "low" ]}];
         summary := "s"; overallScore := NInt 90 |}))
    = [severity_header "low" 1].
Proof.
  split.
  - apply (proj1 (proj2 (proj2 (printResults_headers secret_result)))).
    repeat constructor.
  - apply (proj2 (proj2 (proj2 (proj2 (printResults_headers
      {| issues := [VObject {[ "severity" := VString "low" ]}];
         summary := "s"; overallScore := NInt 90 |}))))).
    + discriminate.
    + repeat constructor.
Defined.

End Report.

(** ** The review loop *)

Section Loop.

Variable toFixed : number → string.

Lemma for_await_app (a b : list SDKMessage) (slot : option value) :
  for_await toFixed (a ++ b) slot =
  slot' ← for_await toFixed a slot; for_await toFixed b slot'.
Proof.
  revert slot. induction a as [|m a IH]; intros slot.
  - cbn [app for_await]. rewrite JS_ret_bind. reflexivity.
  - cbn [app for_await]. rewrite JS_bind_assoc. apply JS_bind_ext.
    intros r. apply IH.
Qed.

Lemma progress_tool (n : string) (i : gmap string value) :
  n ≠ "Task" →
  progress (tool_use n i) =
  match getToolSummary {| name := n; input := i |} with
  | Normal s => MkJS ["📂 " ++ n ++ ": " ++ s] (Normal tt)
  | Throw e => MkJS [] (Throw e)
  end.
Proof.
  intros N. unfold progress, tool_use. cbn [block_name block_input name input].
  destruct (String.eqb_spec n "Task") as [E|_]; [contradiction|].
  rewrite eval_bind. reflexivity.
Qed.

Lemma progress_renders (b : ContentBlock) :
  block_renders b = true → ∃ lines, progress b = MkJS lines (Normal tt).
Proof.
  destruct b as [[n|] [i|]]; try (intros _; eexists; reflexivity).
  unfold block_renders. cbn [block_name block_input].
  change {| block_name := Some n; block_input := Some i |} with (tool_use n i).
  case_decide as T.
  - subst n. rewrite progress_task. intros C.
    destruct (field_text_total i "subagent_type" "unknown" C) as [who ->].
    eauto.
  - rewrite (progress_tool n i T). intros C.
    rewrite getToolSummary_documented.
    destruct (documented_summary_total {| name := n; input := i |})
      as [s ->]; [|eauto].
    apply Forall_forall. intros key Hk. cbn [name input] in *.
    rewrite forallb_forall in C. apply C, list_elem_of_In. exact Hk.
Qed.

Lemma for_of_progress (content : list ContentBlock) :
  forallb block_renders content = true →
  ∃ lines, for_of content progress = MkJS lines (Normal tt).
Proof.
  induction content as [|b content IH]; [eexists; reflexivity|].
  cbn [forallb for_of]. intros H. apply andb_prop in H as [Hb Hc].
  destruct (progress_renders b Hb) as [l1 ->].
  destruct (IH Hc) as [l2 ->]. eexists. reflexivity.
Qed.

Lemma on_message_result (slot : option value) (subtype : string)
      (payload : value) (cost : option number) :
  on_message toFixed slot (SDKResultMessage subtype payload cost) =
  match accepted (SDKResultMessage subtype payload cost) with
  | Some p =>
      MkJS [nl ++ "✅ Review complete! Cost: $" ++
            toFixed (default (NInt 0) cost)] (Normal (Some p))
  | None => MkJS [failure_line subtype payload] (Normal slot)
  end.
Proof.
  unfold on_message, accepted, failure_line.
  destruct (String.eqb_spec subtype "success") as [->|N].
  - rewrite decide_True by reflexivity. cbn [andb].
    destruct (ToBoolean payload); [|reflexivity].
    destruct (isValidReviewResult_total payload) as [-> | ->]; reflexivity.
  - rewrite !decide_False by exact N. reflexivity.
Qed.

Lemma on_message_quiet (slot : option value) (m : SDKMessage) :
  renders m = true → accepted m = None →
  ∃ lines, on_message toFixed slot m = MkJS lines (Normal slot).
Proof.
  destruct m as [content|subtype payload cost|type].
  - intros R _. cbn [renders] in R. cbn [on_message].
    destruct (for_of_progress content R) as [lines ->]. eexists. reflexivity.
  - intros _ A. rewrite on_message_result, A. eauto.
  - intros _ _. eexists. reflexivity.
Qed.

(** One message changes the slot only by recording an accepted payload. *)
Lemma on_message_slot (slot slot' : option value) (m : SDKMessage) :
  outcome (on_message toFixed slot m) = Normal slot' →
  slot' = slot ∨ ∃ p, accepted m = Some p ∧ slot' = Some p.
Proof.
  destruct m as [content|subtype payload cost|type].
  - cbn [on_message]. rewrite outcome_bind.
    destruct (outcome (for_of content progress)); [|discriminate].
    intros [= <-]. auto.
  - rewrite on_message_result.
    destruct (accepted _) as [p|]; intros [= <-]; eauto.
  - intros [= <-]. auto.
Qed.

Lemma for_await_quiet (l : list SDKMessage) (slot : option value) :
  Forall (λ m, renders m = true) l → Forall (λ m, accepted m = None) l →
  ∃ lines, for_await toFixed l slot = MkJS lines (Normal slot).
Proof.
  induction l as [|m l IH]; [eexists; reflexivity|].
  intros R A. inversion_clear R as [|? ? Rm Rl].
  inversion_clear A as [|? ? Am Al]. cbn [for_await].
  destruct (on_message_quiet slot m Rm Am) as [l1 ->].
  destruct (IH Rl Al) as [l2 E]. eexists.
  unfold mbind, JS_bind. cbn [outcome console]. rewrite E. reflexivity.
Qed.

Lemma for_await_unaccepted (l : list SDKMessage) (slot slot' : option value) :
  Forall (λ m, accepted m = None) l →
  outcome (for_await toFixed l slot) = Normal slot' → slot' = slot.
Proof.
  revert slot. induction l as [|m l IH]; intros slot A.
  - intros [= <-]. reflexivity.
  - inversion_clear A as [|? ? Am Al]. cbn [for_await]. rewrite outcome_bind.
    destruct (outcome (on_message toFixed slot m)) as [r|e] eqn:E;
      [|discriminate].
    intros H. apply (IH _ Al) in H. subst slot'.
    destruct (on_message_slot _ _ _ E) as [->|(p & Hp & _)];
      [reflexivity | congruence].
Qed.

Lemma runCodeReview_run (directory : string) (stream : EventStream) :
  runCodeReview toFixed directory stream =
  MkJS (review_banner directory
        ++ console (for_await toFixed (events stream) None))
       match outcome (for_await toFixed (events stream) None) with
       | Normal slot =>
           match failure stream with
           | Some e => Throw (SessionError e)
           | None => Normal slot
           end
       | Throw e => Throw e
       end.
Proof.
  unfold runCodeReview.
  destruct (for_await toFixed (events stream) None) as [lines [slot|e]];
    [destruct (failure stream)|]; unfold mbind, JS_bind, mret, JS_ret;
    cbn; rewrite ?app_nil_r; reflexivity.
Qed.


Lemma accepted_Some (m : SDKMessage) (p : value) :
  accepted m = Some p →
  ∃ cost, m = SDKResultMessage "success" p cost
          ∧ ToBoolean p = true ∧ isValidReviewResult p = Normal true.
Proof.
  destruct m as [content|subtype payload cost|type]; try discriminate.
  unfold accepted. case_decide as S; [subst subtype|discriminate].
  destruct (ToBoolean payload) eqn:T; [|discriminate].
  destruct (isValidReviewResult payload) as [[]|] eqn:V; try discriminate.
  intros [= <-]. eauto.
Qed.

Lemma not_result_unaccepted (l : list SDKMessage) :
  Forall (λ m, is_result m = false) l → Forall (λ m, accepted m = None) l.
Proof.
  intros H. eapply Forall_impl; [exact H|].
  intros [] R; try discriminate; reflexivity.
Qed.


Lemma for_await_renders (l : list SDKMessage) (slot : option value) :
  Forall (λ m, renders m = true) l →
  ∃ slot', outcome (for_await toFixed l slot) = Normal slot'.
Proof.
  revert slot. induction l as [|m l IH]; intros slot R; [eexists; reflexivity|].
  inversion_clear R as [|? ? Rm Rl]. cbn [for_await]. rewrite outcome_bind.
  assert (S : ∃ r, outcome (on_message toFixed slot m) = Normal r).
  { destruct (accepted m) as [p|] eqn:A.
    - destruct (accepted_Some m p A) as (cost & -> & _).
      rewrite on_message_result, A. eexists. reflexivity.
    - destruct (on_message_quiet slot m Rm A) as [lines ->]. eexists.
      reflexivity. }
  destruct S as [r ->]. apply IH. exact Rl.
Qed.

Lemma terminal_last_prefix (pre post : list SDKMessage) :
  terminal_last (pre ++ post) → post ≠ [] →
  Forall (λ m, is_result m = false) pre.
Proof.
  intros T N. apply Forall_forall. intros m Hm.
  destruct (is_result m) eqn:R; [|reflexivity].
  apply list_elem_of_split in Hm as (a & b & ->).
  assert (E : (b ++ post)%list = []).
  { apply (T a m (b ++ post)%list); [|exact R].
    rewrite <- app_assoc. reflexivity. }
  apply app_eq_nil in E as [_ E]. contradiction.
Qed.

(** What the loop hands to [printResults] has passed the guard. *)
Lemma for_await_valid (l : list SDKMessage) (slot slot' : option value) :
  (∀ p, slot = Some p → isValidReviewResult p = Normal true) →
  outcome (for_await toFixed l slot) = Normal slot' →
  ∀ p, slot' = Some p → isValidReviewResult p = Normal true.
Proof.
  revert slot. induction l as [|m l IH]; intros slot V.
  - intros [= <-]. exact V.
  - cbn [for_await]. rewrite outcome_bind.
    destruct (outcome (on_message toFixed slot m)) as [r|e] eqn:E;
      [|discriminate].
    apply IH. intros p ->.
    destruct (on_message_slot _ _ _ E) as [<-|(q & A & [= <-])];
      [apply V; reflexivity|].
    destruct (accepted_Some m p A) as (_ & _ & _ & I). exact I.
Qed.

Lemma runCodeReview_valid (directory : string) (stream : EventStream)
      (p : value) :
  outcome (runCodeReview toFixed directory stream) = Normal (Some p) →
  isValidReviewResult p = Normal true ∧ is_Some (as_ReviewResult p).
Proof.
  rewrite runCodeReview_run. cbn [outcome].
  destruct (outcome (for_await toFixed (events stream) None)) as [slot|e] eqn:E;
    [|discriminate].
  destruct (failure stream); [discriminate|]. intros [= ->].
  assert (I : isValidReviewResult p = Normal true).
  { apply (for_await_valid (events stream) None (Some p));
      [discriminate | exact E | reflexivity]. }
  split; [exact I | apply as_ReviewResult_valid; exact I].
Qed.



(** C9, as the claim has it, fails: a stream without a terminal message whose
    progress line cannot be written ends in a TypeError. *)
Lemma runCodeReview_no_terminal_raises :
  Forall (λ m, is_result m = false) (events stream_shadowed_no_terminal)
  ∧ failure stream_shadowed_no_terminal = None
  ∧ outcome (runCodeReview toFixed_unused "." stream_shadowed_no_terminal)
    = Throw cannot_convert.
Proof.
  split; [repeat constructor|]. split; [reflexivity | vm_compute; reflexivity].
Qed.

(** C9, amended: a message changes the slot only by recording the payload of
    a terminal message with success status whose payload passes the guard;
    with the terminal message last, the slot is unset after every proper
    prefix of the stream, so it is written at most once, by the last message,
    and nothing comes after that write; no message other than such a terminal
    message changes a slot already written; and when the stream ends with no
    terminal message and every progress line was written, the function
    returns null without raising. *)
Theorem result_slot_written_once (messages : list SDKMessage) :
  (∀ slot slot' m,
     outcome (on_message toFixed slot m) = Normal slot' →
     slot' = slot
     ∨ ∃ p cost, m = SDKResultMessage "success" p cost
                 ∧ ToBoolean p = true
                 ∧ isValidReviewResult p = Normal true
                 ∧ slot' = Some p)
  ∧ (terminal_last messages →
     ∀ pre post slot,
       messages = (pre ++ post)%list → post ≠ [] →
       outcome (for_await toFixed pre None) = Normal slot → slot = None)
  ∧ (terminal_last messages →
     ∀ slot,
       outcome (for_await toFixed messages None) = Normal slot →
       slot = None
       ∨ ∃ pre p cost,
           messages = (pre ++ [SDKResultMessage "success" p cost])%list
           ∧ ToBoolean p = true
           ∧ isValidReviewResult p = Normal true
           ∧ slot = Some p)
  ∧ (∀ post slot slot',
       Forall (λ m, accepted m = None) post →
       outcome (for_await toFixed post slot) = Normal slot' → slot' = slot)
  ∧ (∀ directory,
       Forall (λ m, is_result m = false) messages →
       Forall (λ m, renders m = true) messages →
       ∃ lines,
         runCodeReview toFixed directory
           {| events := messages; failure := None |}
         = MkJS lines (Normal None)).
Proof.
  split; [|split; [|split; [|split]]].
  - intros slot slot' m H.
    destruct (on_message_slot _ _ _ H) as [->|(p & A & ->)]; [auto|].
    destruct (accepted_Some m p A) as (cost & -> & T & V). right. eauto 8.
  - intros T pre post slot -> N H.
    apply (for_await_unaccepted pre None slot); [|exact H].
    apply not_result_unaccepted, (terminal_last_prefix pre post T N).
  - intros T slot.
    destruct messages as [|m0 l0] using rev_ind; [intros [= <-]; auto|].
    clear IHl0. rename l0 into pre, m0 into m.
    rewrite for_await_app, outcome_bind.
    destruct (outcome (for_await toFixed pre None)) as [s|e] eqn:E;
      [|discriminate].
    assert (s = None) as ->.
    { apply (for_await_unaccepted pre None s); [|exact E].
      apply not_result_unaccepted, (terminal_last_prefix pre [m] T).
      discriminate. }
    cbn [for_await]. rewrite outcome_bind.
    destruct (outcome (on_message toFixed None m)) as [r|e] eqn:M;
      [|discriminate].
    intros [= <-].
    destruct (on_message_slot _ _ _ M) as [->|(p & A & ->)]; [auto|].
    destruct (accepted_Some m p A) as (cost & -> & B & V). right. eauto 8.
  - intros post slot slot'. apply for_await_unaccepted.
  - intros directory N R. rewrite runCodeReview_run. cbn [events failure].
    destruct (for_await_quiet messages None R (not_result_unaccepted _ N))
      as [lines ->].
    eexists. reflexivity.
Qed.

End Loop.


Lemma result_slot_written_once_witness :
  ∃ lines,
    runCodeReview toFixed_unused "." stream_progress_only = MkJS lines (Normal None).
Proof.
  apply (proj2 (proj2 (proj2 (proj2 (result_slot_written_once toFixed_unused
                                (events stream_progress_only))))) ".");
    repeat constructor.
Defined.

(** ** The documented scenarios *)

Example validator_rejects_string_issues :
  isValidReviewResult
    (VObject (<[ "issues" := VString "x" ]>
              (<[ "summary" := VString "s" ]>
               {[ "overallScore" := VNumber (NInt 1) ]})))
  = Normal false.
Proof. vm_compute. reflexivity. Qed.

Example validator_accepts_empty_issues :
  isValidReviewResult
    (VObject (<[ "issues" := VArray [] ]>
              (<[ "summary" := VString "s" ]>
               {[ "overallScore" := VNumber (NInt 0) ]})))
  = Normal true.
Proof. vm_compute. reflexivity. Qed.

Example validator_rejects_null_and_arrays :
  isValidReviewResult VNull = Normal false
  ∧ isValidReviewResult VUndefined = Normal false
  ∧ isValidReviewResult (VArray []) = Normal false
  ∧ isValidReviewResult (VString "issues") = Normal false.
Proof. repeat split. Qed.

Example scenario_success :
  outcome (runCodeReview toFixed_unused "."
             {| events := [SDKResultMessage "success" secret_payload None];
                failure := None |})
  = Normal (Some secret_payload)
  ∧ as_ReviewResult secret_payload = Some secret_result
  ∧ printResults secret_result
    = MkJS [nl ++ String_repeat "=" 50;
            "📊 REVIEW RESULTS";
            String_repeat "=" 50 ++ nl;
            "Score: 60/100";
            "Issues Found: 1" ++ nl;
            "Summary: 1 issue found" ++ nl;
            nl ++ "🔴 CRITICAL (1)";
            String_repeat "-" 30;
            nl ++ "[security] auth.ts";
            "  hardcoded secret"]
           (Normal tt).
Proof. repeat split; vm_compute; reflexivity. Qed.

Example scenario_max_turns :
  runCodeReview toFixed_unused "."
    {| events := [SDKResultMessage "error_max_turns" VUndefined None];
       failure := None |}
  = MkJS (review_banner "." ++ [nl ++ "❌ Review failed: error_max_turns"])
         (Normal None).
Proof. vm_compute. reflexivity. Qed.

Example scenario_stream_failure :
  runCodeReview toFixed_unused "."
    {| events := []; failure := Some "spawn failed" |}
  = MkJS (review_banner ".") (Throw (SessionError "spawn failed")).
Proof. vm_compute. reflexivity. Qed.

(** * Further properties *)

(** ** The guard and the contract *)

(** X1: the guard looks at three properties only: setting or removing any
    other property of a payload does not change its answer. *)
Theorem isValidReviewResult_other_fields (o : gmap string value)
        (key : string) (v : value) :
  key ∉ ["issues"; "summary"; "overallScore"] →
  isValidReviewResult (VObject (<[ key := v ]> o))
  = isValidReviewResult (VObject o)
  ∧ isValidReviewResult (VObject (delete key o))
    = isValidReviewResult (VObject o).
Proof.
  intros N. rewrite !isValidReviewResult_object. unfold prop.
  assert (key ≠ "issues" ∧ key ≠ "summary" ∧ key ≠ "overallScore")
    as (Hi & Hs & Ho).
  { repeat split; intros ->; apply N; set_solver. }
  rewrite !lookup_insert_ne, !lookup_delete_ne by assumption. auto.
Qed.

Lemma isValidReviewResult_other_fields_witness :
  isValidReviewResult
    (VObject (<[ "extra" := VNull ]> {[ "summary" := VString "s" ]}))
  = isValidReviewResult (VObject {[ "summary" := VString "s" ]}).
Proof.
  apply (isValidReviewResult_other_fields _ "extra" VNull).
  intros H. repeat (apply elem_of_cons in H as [H|H]; [discriminate|]).
  inversion H.
Defined.

Lemma conforms_reviewSchema_fields (P : value) :
  conforms reviewSchema P = true →
  ∃ (o : gmap string value) (elems : list value) (s : string) (n : number),
    P = VObject o
    ∧ o !! "issues" = Some (VArray elems)
    ∧ o !! "summary" = Some (VString s)
    ∧ o !! "overallScore" = Some (VNumber n)
    ∧ forallb (conforms issueSchema) elems = true.
Proof.
  destruct P as [| | | | | |o]; try discriminate.
  cbn [conforms reviewSchema forallb fst snd].
  rewrite !andb_true_iff, !bool_decide_eq_true.
  intros [(Hi & Hs & Hn & _) ([ei Ei] & [es Es] & [en En] & _)].
  rewrite Ei in Hi. rewrite Es in Hs. rewrite En in Hn.
  destruct ei; try discriminate Hi. destruct es; try discriminate Hs.
  destruct en; try discriminate Hn. cbn [conforms] in Hi. eauto 10.
Qed.

(** X2: a payload that conforms to [reviewSchema] passes the guard; the guard
    asks for less than the schema, and accepts a payload whose issue has a
    severity that the schema does not allow. *)
Theorem reviewSchema_passes_guard (P : value) :
  (conforms reviewSchema P = true → isValidReviewResult P = Normal true)
  ∧ (isValidReviewResult info_payload = Normal true
     ∧ conforms reviewSchema info_payload = false).
Proof.
  split.
  - intros C.
    destruct (conforms_reviewSchema_fields P C)
      as (o & elems & s & n & -> & Hi & Hs & Hn & _).
    rewrite isValidReviewResult_object. unfold prop.
    rewrite Hi, Hs, Hn. reflexivity.
  - split; vm_compute; reflexivity.
Qed.

Lemma reviewSchema_passes_guard_witness :
  isValidReviewResult secret_payload = Normal true.
Proof.
  apply (proj1 (reviewSchema_passes_guard secret_payload)).
  vm_compute. reflexivity.
Defined.

(** ** Tool calls *)

Lemma field_text_outcome (i : gmap string value) (key fallback : string) :
  match field_text i key fallback with
  | Normal _ => convertible (prop i key) = true
  | Throw e => e = cannot_convert ∧ convertible (prop i key) = false
  end.
Proof.
  unfold field_text, prop. destruct (i !! key) as [v|]; [|reflexivity].
  pose proof (ToString_convertible v) as C. cbn [default].
  destruct v; try reflexivity;
    (destruct (convertible _); [destruct C as [s ->]; reflexivity|];
     rewrite C; auto).
Qed.

(** X3: a summary throws exactly when one of the input fields it reads has no
    text, and what it throws is always the TypeError of the conversion. *)
Theorem getToolSummary_throws_iff (block : ToolUseBlock) :
  (∀ e, getToolSummary block = Throw e → e = cannot_convert)
  ∧ (getToolSummary block = Throw cannot_convert ↔
     Exists (λ key, convertible (prop (input block) key) = false)
            (consulted (name block))).
Proof.
  rewrite getToolSummary_documented. unfold documented_summary, consulted.
  repeat case_decide.
  - pose proof (field_text_outcome (input block) "file_path" "file") as F.
    destruct (field_text _ "file_path" _) as [s|e].
    + split; [discriminate|]. split; [discriminate|].
      intros X. apply Exists_cons in X as [X|X]; [congruence|inversion X].
    + destruct F as [-> F]. split; [intros ? [= <-]; reflexivity|].
      split; [intros _; constructor; exact F | reflexivity].
  - pose proof (field_text_outcome (input block) "pattern" "pattern") as F.
    destruct (field_text _ "pattern" _) as [s|e].
    + split; [discriminate|]. split; [discriminate|].
      intros X. apply Exists_cons in X as [X|X]; [congruence|inversion X].
    + destruct F as [-> F]. split; [intros ? [= <-]; reflexivity|].
      split; [intros _; constructor; exact F | reflexivity].
  - pose proof (field_text_outcome (input block) "pattern" EmptyString) as F.
    pose proof (field_text_outcome (input block) "path" ".") as G.
    destruct (field_text _ "pattern" _) as [s|e].
    + destruct (field_text _ "path" _) as [r|e]; cbn.
      * split; [discriminate|]. split; [discriminate|].
        intros X. apply Exists_cons in X as [X|X]; [congruence|].
        apply Exists_cons in X as [X|X]; [congruence|inversion X].
      * destruct G as [-> G]. split; [intros ? [= <-]; reflexivity|].
        split; [intros _; right; left; exact G | reflexivity].
    + destruct F as [-> F]. cbn. split; [intros ? [= <-]; reflexivity|].
      split; [intros _; left; exact F | reflexivity].
  - split; [discriminate|]. split; [discriminate | intros X; inversion X].
Qed.

(** X4: a summary depends on the tool name and on the input fields it reads,
    and on nothing else of the input. *)
Theorem getToolSummary_other_fields (block : ToolUseBlock)
        (i : gmap string value) :
  (∀ key, key ∈ consulted (name block) → i !! key = input block !! key) →
  getToolSummary {| name := name block; input := i |} = getToolSummary block.
Proof.
  intros Same. rewrite !getToolSummary_documented.
  unfold documented_summary, consulted in *. cbn [name input].
  unfold field_text.
  repeat case_decide; rewrite ?Same by set_solver; reflexivity.
Qed.

Lemma getToolSummary_other_fields_witness :
  getToolSummary
    {| name := "Read";
       input := <[ "limit" := VNumber (NInt 10) ]>
                  {[ "file_path" := VString "x.ts" ]} |}
  = getToolSummary
      {| name := "Read"; input := {[ "file_path" := VString "x.ts" ]} |}.
Proof.
  apply (getToolSummary_other_fields
           {| name := "Read"; input := {[ "file_path" := VString "x.ts" ]} |}).
  intros key H. apply list_elem_of_singleton in H as ->. reflexivity.
Defined.

Lemma progress_line_count (b : ContentBlock) :
  block_renders b = true →
  ∃ lines, progress b = MkJS lines (Normal tt)
           ∧ length lines = if is_tool_use b then 1 else 0.
Proof.
  destruct b as [[n|] [i|]]; try (intros _; eexists; split; reflexivity).
  unfold block_renders, is_tool_use. cbn [block_name block_input].
  change {| block_name := Some n; block_input := Some i |} with (tool_use n i).
  case_decide as T.
  - subst n. rewrite progress_task. intros C.
    destruct (field_text_total i "subagent_type" "unknown" C) as [who ->].
    eexists. split; reflexivity.
  - rewrite (progress_tool n i T). intros C.
    rewrite getToolSummary_documented.
    destruct (documented_summary_total {| name := n; input := i |})
      as [s ->]; [|eexists; split; reflexivity].
    apply Forall_forall. intros key Hk. cbn [name input] in *.
    rewrite forallb_forall in C. apply C, list_elem_of_In. exact Hk.
Qed.

(** X5: when every progress line of an assistant message can be written,
    the message logs one line for each content block that has a name and an
    input, and none for its other blocks. *)
Theorem progress_one_line_per_tool_use (content : list ContentBlock) :
  forallb block_renders content = true →
  ∃ lines, for_of content progress = MkJS lines (Normal tt)
           ∧ length lines = length (List.filter is_tool_use content).
Proof.
  induction content as [|b content IH];
    [intros _; eexists; split; reflexivity|].
  cbn [forallb for_of List.filter]. intros H.
  apply andb_prop in H as [Hb Hc].
  destruct (progress_line_count b Hb) as (l1 & -> & L1).
  destruct (IH Hc) as (l2 & -> & L2).
  exists (l1 ++ l2)%list. split; [reflexivity|].
  rewrite length_app, L1, L2. destruct (is_tool_use b); reflexivity.
Qed.

Lemma progress_one_line_per_tool_use_witness :
  ∃ lines,
    for_of [tool_use "Read" {[ "file_path" := VString "x.ts" ]};
            {| block_name := None; block_input := None |};
            tool_use "Task" ∅] progress
    = MkJS lines (Normal tt)
    ∧ length lines = 2.
Proof.
  apply (progress_one_line_per_tool_use
           [tool_use "Read" {[ "file_path" := VString "x.ts" ]};
            {| block_name := None; block_input := None |};
            tool_use "Task" ∅]).
  reflexivity.
Defined.

Lemma getToolSummary_throws_iff_witness :
  getToolSummary read_shadowed = Throw cannot_convert.
Proof.
  apply (proj2 (getToolSummary_throws_iff read_shadowed)).
  left. reflexivity.
Defined.

(** ** The slot of the loop *)

Section Slot.

Variable toFixed : number → string.

Lemma on_message_slot_exact (slot slot' : option value) (m : SDKMessage) :
  outcome (on_message toFixed slot m) = Normal slot' →
  slot' = match accepted m with Some p => Some p | None => slot end.
Proof.
  destruct m as [content|subtype payload cost|type].
  - cbn [on_message accepted]. rewrite outcome_bind.
    destruct (outcome (for_of content progress)); [|discriminate].
    intros [= <-]. reflexivity.
  - rewrite on_message_result.
    destruct (accepted _) as [p|]; intros [= <-]; reflexivity.
  - intros [= <-]. reflexivity.
Qed.

Lemma for_await_last_accepted (l : list SDKMessage) (slot slot' : option value) :
  outcome (for_await toFixed l slot) = Normal slot' →
  slot' = last_accepted l slot.
Proof.
  revert slot. induction l as [|m l IH]; intros slot.
  - intros [= <-]. reflexivity.
  - cbn [for_await]. rewrite outcome_bind.
    destruct (outcome (on_message toFixed slot m)) as [r|e] eqn:E;
      [|discriminate].
    intros H. apply IH in H. rewrite H.
    rewrite (on_message_slot_exact _ _ _ E). reflexivity.
Qed.

(** X6: what [runCodeReview] returns is the payload of the last message it
    recorded, or null when it recorded none: a later terminal message that
    fails does not clear the slot, and a later one that succeeds replaces
    it.  It returns only when the stream did not fail. *)
Theorem runCodeReview_last_accepted (directory : string)
        (stream : EventStream) (slot : option value) :
  outcome (runCodeReview toFixed directory stream) = Normal slot →
  slot = last_accepted (events stream) None ∧ failure stream = None.
Proof.
  rewrite runCodeReview_run. cbn [outcome].
  destruct (outcome (for_await toFixed (events stream) None)) as [s|e] eqn:E;
    [|discriminate].
  destruct (failure stream); [discriminate|]. intros [= <-].
  split; [|reflexivity]. apply for_await_last_accepted. exact E.
Qed.

(** X7: a payload that [runCodeReview] returns has passed the guard, so it
    reads as a [ReviewResult]: nothing else ever reaches [printResults]. *)
Theorem runCodeReview_returns_validated (directory : string)
        (stream : EventStream) (p : value) :
  outcome (runCodeReview toFixed directory stream) = Normal (Some p) →
  isValidReviewResult p = Normal true
  ∧ ∃ r, as_ReviewResult p = Some r.
Proof.
  intros H. destruct (runCodeReview_valid toFixed directory stream p H)
    as [V [r R]]. eauto.
Qed.

Lemma runCodeReview_success_run (directory : string) (pre : list SDKMessage)
        (payload : value) (cost : option number) :
  Forall (λ m, renders m = true) pre →
  ToBoolean payload = true →
  isValidReviewResult payload = Normal true →
  ∃ lines,
    runCodeReview toFixed directory
      {| events := pre ++ [SDKResultMessage "success" payload cost];
         failure := None |}
    = MkJS (lines ++ [nl ++ "✅ Review complete! Cost: $" ++
                      toFixed (default (NInt 0) cost)])
           (Normal (Some payload)).
Proof.
  intros R T V.
  assert (A : accepted (SDKResultMessage "success" payload cost)
              = Some payload).
  { unfold accepted. rewrite decide_True by reflexivity. rewrite T, V.
    reflexivity. }
  destruct (for_await_renders toFixed pre None R) as [s E].
  destruct (for_await toFixed pre None) as [lines o] eqn:F.
  cbn [outcome] in E. subst o.
  exists (review_banner directory ++ lines)%list.
  rewrite runCodeReview_run. cbn [events failure].
  rewrite for_await_app, F, JS_bind_assoc_Normal. cbn [for_await].
  rewrite on_message_result, A, JS_bind_assoc_Normal.
  cbn [mret JS_ret console outcome app]. rewrite <- app_assoc.
  reflexivity.
Qed.

(** X8: when the progress lines before it can be written, a terminal message
    with success status whose payload is present and passes the guard makes
    [runCodeReview] return that payload, whatever was recorded before, after
    a last line that shows the cost to four digits, and the cost 0 when the
    message carries none. *)
Theorem runCodeReview_success (directory : string) (pre : list SDKMessage)
        (payload : value) (cost : option number) :
  Forall (λ m, renders m = true) pre →
  ToBoolean payload = true →
  isValidReviewResult payload = Normal true →
  ∃ lines,
    runCodeReview toFixed directory
      {| events := pre ++ [SDKResultMessage "success" payload cost];
         failure := None |}
    = MkJS (lines ++ [nl ++ "✅ Review complete! Cost: $" ++
                      toFixed (default (NInt 0) cost)])
           (Normal (Some payload)).
Proof. apply runCodeReview_success_run. Qed.

End Slot.

Lemma runCodeReview_last_accepted_witness :
  Some secret_payload
  = last_accepted
      [SDKResultMessage "success" secret_payload None;
       SDKResultMessage "error_during_execution" VUndefined None] None.
Proof.
  apply (proj1 (runCodeReview_last_accepted toFixed_unused "."
    {| events := [SDKResultMessage "success" secret_payload None;
                  SDKResultMessage "error_during_execution" VUndefined None];
       failure := None |} (Some secret_payload) eq_refl)).
Defined.

Lemma runCodeReview_returns_validated_witness :
  isValidReviewResult secret_payload = Normal true.
Proof.
  apply (proj1 (runCodeReview_returns_validated toFixed_unused "."
    {| events := [SDKResultMessage "success" secret_payload None];
       failure := None |} secret_payload eq_refl)).
Defined.

Lemma runCodeReview_success_witness :
  ∃ lines,
    runCodeReview toFixed_unused "."
      {| events := [SDKOtherMessage "system"]
                   ++ [SDKResultMessage "success" secret_payload None];
         failure := None |}
    = MkJS (lines ++ [nl ++ "✅ Review complete! Cost: $" ++
                      toFixed_unused (default (NInt 0) None)])
           (Normal (Some secret_payload)).
Proof.
  apply (runCodeReview_success toFixed_unused "." [SDKOtherMessage "system"]
           secret_payload None).
  - repeat constructor.
  - reflexivity.
  - reflexivity.
Defined.

(** ** The report of a payload *)

Section Printing.

Lemma JS_eq {A : Type} (j : JS A) (lines : list string) (o : completion A) :
  console j = lines → outcome j = o → j = MkJS lines o.
Proof. destruct j. cbn. intros -> ->. reflexivity. Qed.

Lemma bucket_none (sev : string) (l : list value) :
  Forall (λ i, bucketed i = false) l →
  sev ∈ severities → bucket sev l = [].
Proof.
  intros N S. unfold bucket. apply filter_none.
  eapply Forall_impl; [exact N|]. intros i B.
  unfold bucketed, severities in *. cbn [existsb] in B.
  repeat (apply orb_false_elim in B as [? B]).
  repeat (apply elem_of_cons in S as [->|S]; [assumption|]). inversion S.
Qed.

(** X9: when every issue is other than undefined and null and none has one
    of the four severities, the report is its six opening lines and nothing
    else: the line of the count gives the number of issues, and none of them
    is shown.  The report of no issue is the case of the empty list. *)
Theorem printResults_nothing_bucketed (r : ReviewResult) :
  Forall (λ i, readable i = true) (issues r) →
  Forall (λ i, bucketed i = false) (issues r) →
  printResults r = MkJS (report_opening r) (Normal tt).
Proof.
  intros R N.
  pose proof (byCategory_buckets (issues r)) as B.
  rewrite (forallb_readable _ R) in B.
  destruct (byCategory (issues r)) as [b|] eqn:E; [|discriminate].
  destruct B as [_ ->].
  rewrite !(bucket_none _ _ N) in E by (unfold severities; set_solver).
  apply JS_eq.
  - rewrite printResults_console, E, eval_bind. apply app_nil_r.
  - rewrite printResults_outcome, E, eval_bind. reflexivity.
Qed.

Lemma printResults_nothing_bucketed_witness :
  printResults {| issues := [info_issue]; summary := "s";
                  overallScore := NInt 1 |}
  = MkJS (report_opening {| issues := [info_issue]; summary := "s";
                            overallScore := NInt 1 |}) (Normal tt).
Proof.
  apply printResults_nothing_bucketed; repeat constructor.
Defined.

Lemma Array_filter_TypeError (sev : string) (l : list value) (e : error) :
  Array_filter (severity_is sev) l = Throw e → ∃ msg, e = TypeError msg.
Proof.
  induction l as [|x l IH]; [discriminate|]. cbn [Array_filter].
  destruct (severity_is sev x) as [k|e'] eqn:S.
  - cbn. destruct (Array_filter (severity_is sev) l); [discriminate|].
    intros [= <-]. apply IH. reflexivity.
  - cbn. intros [= <-]. destruct x; try discriminate S;
      injection S as <-; eauto.
Qed.

(** X10: when an element of [issues] is null or undefined, the report throws a TypeError
    right after its six opening lines: no bucket is printed, not even for
    the issues that are well formed. *)
Theorem printResults_unreadable_issue (r : ReviewResult) :
  Exists (λ i, readable i = false) (issues r) →
  ∃ msg, printResults r = MkJS (report_opening r) (Throw (TypeError msg)).
Proof.
  intros X.
  assert (F : forallb readable (issues r) = false).
  { induction X as [i l Hi|i l _ IH]; cbn [forallb].
    - rewrite Hi. reflexivity.
    - rewrite IH. apply andb_false_r. }
  pose proof (byCategory_buckets (issues r)) as B.
  destruct (byCategory (issues r)) as [b|e] eqn:E;
    [destruct B as [B _]; congruence|].
  assert (T : ∃ msg, e = TypeError msg).
  { unfold byCategory in E.
    destruct (Array_filter (severity_is "critical") (issues r)) eqn:C;
      [|injection E as <-; eapply Array_filter_TypeError; exact C].
    destruct (Array_filter (severity_is "high") (issues r)) eqn:H;
      [|injection E as <-; eapply Array_filter_TypeError; exact H].
    destruct (Array_filter (severity_is "medium") (issues r)) eqn:M;
      [|injection E as <-; eapply Array_filter_TypeError; exact M].
    destruct (Array_filter (severity_is "low") (issues r)) eqn:L;
      [discriminate|injection E as <-; eapply Array_filter_TypeError; exact L]. }
  destruct T as [msg ->]. exists msg. apply JS_eq.
  - rewrite printResults_console, E, eval_bind. apply app_nil_r.
  - rewrite printResults_outcome, E, eval_bind. reflexivity.
Qed.

Lemma printResults_unreadable_issue_witness :
  ∃ msg,
    printResults {| issues := [secret_issue; VNull]; summary := "s";
                    overallScore := NInt 1 |}
    = MkJS (report_opening {| issues := [secret_issue; VNull];
                              summary := "s"; overallScore := NInt 1 |})
           (Throw (TypeError msg)).
Proof.
  apply printResults_unreadable_issue. right. left. reflexivity.
Defined.

Lemma conforms_issue_fields (i : value) :
  conforms issueSchema i = true →
  ∃ (o : gmap string value) (sv c f d : string),
    i = VObject o
    ∧ o !! "severity" = Some (VString sv)
    ∧ sv ∈ ["low"; "medium"; "high"; "critical"]
    ∧ o !! "category" = Some (VString c)
    ∧ o !! "file" = Some (VString f)
    ∧ o !! "description" = Some (VString d)
    ∧ (o !! "line" = None ∨ ∃ n, o !! "line" = Some (VNumber n))
    ∧ (o !! "suggestion" = None ∨ ∃ s, o !! "suggestion" = Some (VString s)).
Proof.
  destruct i as [| | | | | |o]; try discriminate.
  cbn [conforms issueSchema forallb fst snd].
  rewrite !andb_true_iff, !bool_decide_eq_true.
  intros [(Hsev & Hcat & Hfile & Hline & Hdesc & Hsug & _)
          ([v1 E1] & [v2 E2] & [v3 E3] & [v4 E4] & _)].
  rewrite E1 in Hsev. rewrite E2 in Hcat. rewrite E3 in Hfile.
  rewrite E4 in Hdesc.
  destruct v1; try discriminate Hsev. destruct v2; try discriminate Hcat.
  destruct v3; try discriminate Hfile. destruct v4; try discriminate Hdesc.
  cbn [conforms] in Hsev. apply bool_decide_eq_true_1 in Hsev.
  exists o. do 4 eexists. repeat split; try eassumption.
  - destruct (o !! "line") as [[]|]; try discriminate Hline; eauto.
  - destruct (o !! "suggestion") as [[]|]; try discriminate Hsug; eauto.
Qed.

Lemma print_issue_conforming_lines (i : value) :
  conforms issueSchema i = true →
  ∃ (o : gmap string value) (c d loc : string),
    i = VObject o
    ∧ o !! "category" = Some (VString c)
    ∧ o !! "description" = Some (VString d)
    ∧ location i = Normal (VString loc)
    ∧ print_issue i
      = MkJS ([nl ++ "[" ++ c ++ "] " ++ loc; "  " ++ d]
              ++ suggestion_lines o) (Normal tt).
Proof.
  intros C.
  destruct (conforms_issue_fields i C)
    as (o & sv & c & f & d & -> & _ & _ & Hc & Hf & Hd & Hl & Hs).
  assert (L : ∃ loc, location (VObject o) = Normal (VString loc)).
  { rewrite location_object. unfold prop. rewrite Hf.
    destruct Hl as [->|[n ->]]; cbn [default from_option id]; [eauto|].
    destruct (ToBoolean (VNumber n)); cbn; eauto. }
  destruct L as [loc L]. exists o, c, d, loc.
  repeat split; try assumption.
  unfold print_issue, suggestion_lines. rewrite L, eval_bind. cbv beta.
  cbn [Get]. unfold prop. rewrite Hc, Hd.
  cbn [default from_option id ToString].
  destruct Hs as [->|[s ->]]; cbn [default from_option id].
  - reflexivity.
  - destruct s; reflexivity.
Qed.

(** X11: an issue that conforms to the schema is printed without an
    exception as two lines, its category in brackets with its location and
    then its description indented, followed by a third line with the
    suggestion exactly when the issue has a suggestion other than the empty
    string. *)
Theorem print_issue_conforming (o : gmap string value) (c d : string) :
  conforms issueSchema (VObject o) = true →
  o !! "category" = Some (VString c) →
  o !! "description" = Some (VString d) →
  ∃ loc,
    location (VObject o) = Normal (VString loc)
    ∧ print_issue (VObject o)
      = MkJS ([nl ++ "[" ++ c ++ "] " ++ loc; "  " ++ d]
              ++ match o !! "suggestion" with
                 | Some (VString s) =>
                     if String.eqb s EmptyString then []
                     else ["  💡 " ++ s]
                 | _ => []
                 end) (Normal tt).
Proof.
  intros C Hc Hd.
  destruct (print_issue_conforming_lines _ C)
    as (o' & c' & d' & loc & [= <-] & Hc' & Hd' & L & P).
  rewrite Hc in Hc'. rewrite Hd in Hd'.
  injection Hc' as <-. injection Hd' as <-. eauto.
Qed.

Lemma print_issue_conforming_witness :
  ∃ loc,
    location (VObject secret_issue_props) = Normal (VString loc)
    ∧ print_issue (VObject secret_issue_props)
      = MkJS ([nl ++ "[security] " ++ loc; "  hardcoded secret"] ++ [])
             (Normal tt).
Proof.
  apply (print_issue_conforming secret_issue_props
           "security" "hardcoded secret").
  - vm_compute. reflexivity.
  - reflexivity.
  - reflexivity.
Defined.

Lemma issue_line_count_app (a b : list string) :
  issue_line_count (a ++ b) = issue_line_count a + issue_line_count b.
Proof. unfold issue_line_count. rewrite List.filter_app. apply length_app. Qed.

Lemma issue_line_count_cons (line : string) (rest : list string) :
  issue_line_count (line :: rest)
  = (if is_issue_line line then 1 else 0) + issue_line_count rest.
Proof.
  unfold issue_line_count. cbn [List.filter].
  destruct (is_issue_line line); reflexivity.
Qed.

Lemma suggestion_lines_count (o : gmap string value) :
  issue_line_count (suggestion_lines o) = 0.
Proof.
  unfold suggestion_lines. destruct (o !! "suggestion") as [[]|]; try reflexivity.
  destruct (String.eqb s EmptyString); reflexivity.
Qed.

Lemma severity_header_not_issue (sev : string) (n : nat) :
  is_issue_line (severity_header sev n) = false.
Proof.
  unfold severity_header, icon_of.
  destruct (String.eqb sev "critical"); [reflexivity|].
  destruct (String.eqb sev "high"); [reflexivity|].
  destruct (String.eqb sev "medium"); reflexivity.
Qed.

Lemma for_of_print_issue_conforming (b : list value) :
  Forall (λ i, conforms issueSchema i = true) b →
  ∃ lines, for_of b print_issue = MkJS lines (Normal tt)
           ∧ issue_line_count lines = length b.
Proof.
  induction 1 as [|i b Hi _ (lines & E & N)];
    [eexists; split; reflexivity|].
  destruct (print_issue_conforming_lines i Hi)
    as (o & c & d & loc & _ & _ & _ & _ & P).
  cbn [for_of]. rewrite P, E, JS_bind_assoc_Normal.
  eexists. split; [reflexivity|]. cbn [console].
  rewrite !issue_line_count_app, suggestion_lines_count, N. reflexivity.
Qed.

Lemma print_bucket_conforming (sev : string) (b : list value) :
  Forall (λ i, conforms issueSchema i = true) b →
  ∃ lines, print_bucket (sev, b) = MkJS lines (Normal tt)
           ∧ issue_line_count lines = length b.
Proof.
  intros C. destruct (for_of_print_issue_conforming b C) as (lines & E & N).
  unfold print_bucket. destruct b as [|i b']; [eexists; split; reflexivity|].
  cbn [length Nat.eqb]. rewrite E.
  exists (severity_header sev (S (length b'))
          :: String_repeat "-" 30 :: lines).
  split; [reflexivity|].
  rewrite !issue_line_count_cons, severity_header_not_issue.
  change (is_issue_line (String_repeat "-" 30)) with false. exact N.
Qed.

Lemma Forall_List_filter {A : Type} (P : A → Prop) (f : A → bool)
      (l : list A) :
  Forall P l → Forall P (List.filter f l).
Proof.
  induction 1 as [|x l Hx _ IH]; cbn; [constructor|].
  destruct (f x); [constructor|]; assumption.
Qed.

Lemma conforming_issue_bucketed (i : value) :
  conforms issueSchema i = true → readable i = true ∧ bucketed i = true.
Proof.
  intros C.
  destruct (conforms_issue_fields i C)
    as (o & sv & c & f & d & -> & Hs & In & _).
  split; [reflexivity|].
  unfold bucketed, severities, has_severity, severity_of, prop.
  rewrite Hs. cbn [default from_option id existsb].
  repeat (apply elem_of_cons in In as [->|In]; [reflexivity|]).
  inversion In.
Qed.

Lemma printResults_conforming_run (P : value) (r : ReviewResult) :
  conforms reviewSchema P = true →
  as_ReviewResult P = Some r →
  outcome (printResults r) = Normal tt
  ∧ headers (console (printResults r)) = due_headers (issues r)
  ∧ length (List.filter is_issue_line (console (printResults r)))
    = length (issues r).
Proof.
  intros C R.
  destruct (conforms_reviewSchema_fields P C)
    as (o & elems & s & n & -> & Hi & Hs & Hn & F).
  unfold as_ReviewResult, prop in R. rewrite Hi, Hs, Hn in R.
  injection R as <-. cbn [issues].
  assert (A : Forall (λ i, conforms issueSchema i = true) elems).
  { apply Forall_forall. intros i In. rewrite forallb_forall in F.
    apply F, list_elem_of_In. exact In. }
  assert (Rd : Forall (λ i, readable i = true) elems).
  { eapply Forall_impl; [exact A|]. intros i Ci.
    apply conforming_issue_bucketed. exact Ci. }
  assert (Bk : Forall (λ i, bucketed i = true) elems).
  { eapply Forall_impl; [exact A|]. intros i Ci.
    apply conforming_issue_bucketed. exact Ci. }
  pose proof (byCategory_buckets elems) as B.
  rewrite (forallb_readable _ Rd) in B.
  destruct (byCategory elems) as [b|] eqn:E; [|discriminate].
  destruct B as [_ ->].
  destruct (print_bucket_conforming "critical" (bucket "critical" elems))
    as (lc & Ec & Nc); [apply Forall_List_filter; exact A|].
  destruct (print_bucket_conforming "high" (bucket "high" elems))
    as (lh & Eh & Nh); [apply Forall_List_filter; exact A|].
  destruct (print_bucket_conforming "medium" (bucket "medium" elems))
    as (lm & Em & Nm); [apply Forall_List_filter; exact A|].
  destruct (print_bucket_conforming "low" (bucket "low" elems))
    as (ll & El & Nl); [apply Forall_List_filter; exact A|].
  assert (Run : (buckets ← eval (byCategory elems);
                 for_of buckets print_bucket)
                = MkJS (lc ++ lh ++ lm ++ ll) (Normal tt)).
  { rewrite E, eval_bind. cbn [for_of]. rewrite Ec, Eh, Em, El.
    cbn. rewrite app_nil_r. reflexivity. }
  assert (Out : outcome (printResults
                  {| issues := elems; summary := s; overallScore := n |})
                = Normal tt).
  { rewrite printResults_outcome. cbn [issues]. rewrite Run. reflexivity. }
  split; [exact Out|]. split.
  - pose proof (for_of_headers print_bucket
      [("critical", bucket "critical" elems); ("high", bucket "high" elems);
       ("medium", bucket "medium" elems); ("low", bucket "low" elems)])
      as [_ H].
    rewrite printResults_console, headers_app, report_opening_headers.
    cbn [issues app]. rewrite E, eval_bind, due_headers_buckets.
    apply H. rewrite printResults_outcome in Out. cbn [issues] in Out.
    rewrite E, eval_bind in Out. exact Out.
  - rewrite printResults_console. cbn [issues]. rewrite Run. cbn [console].
    change (length (List.filter is_issue_line ?l)) with (issue_line_count l).
    rewrite !issue_line_count_app, Nc, Nh, Nm, Nl.
    change (issue_line_count (report_opening _)) with 0. cbn [Nat.add].
    rewrite <- !length_app.
    rewrite (Permutation_length (buckets_permutation elems)).
    rewrite (filter_all _ _ Bk). reflexivity.
Qed.

(** X12: for a payload that conforms to [reviewSchema], the report completes
    without an exception, has the header of every severity that occurs among
    the issues, and prints every issue exactly once. *)
Theorem printResults_conforming (P : value) (r : ReviewResult) :
  conforms reviewSchema P = true →
  as_ReviewResult P = Some r →
  outcome (printResults r) = Normal tt
  ∧ headers (console (printResults r)) = due_headers (issues r)
  ∧ length (List.filter is_issue_line (console (printResults r)))
    = length (issues r).
Proof. apply printResults_conforming_run. Qed.

Lemma printResults_conforming_witness :
  outcome (printResults secret_result) = Normal tt
  ∧ headers (console (printResults secret_result))
    = due_headers (issues secret_result)
  ∧ length (List.filter is_issue_line (console (printResults secret_result)))
    = length (issues secret_result).
Proof.
  apply (printResults_conforming secret_payload secret_result).
  - vm_compute. reflexivity.
  - vm_compute. reflexivity.
Defined.

End Printing.

(** ** The program *)

Section Program.

Variable toFixed : number → string.
Variable path_resolve : string → string.
Variable file_system : string → option FileKind.

Lemma validateDirectory_cases (directory : string) :
  match file_system (path_resolve directory) with
  | Some Directory => validateDirectory path_resolve file_system directory = inl (path_resolve directory)
  | Some NotDirectory =>
      validateDirectory path_resolve file_system directory
      = inr ("Path is not a directory: " ++ path_resolve directory)
  | None =>
      validateDirectory path_resolve file_system directory
      = inr ("Directory does not exist: " ++ path_resolve directory)
  end.
Proof.
  unfold validateDirectory, existsSync, isDirectory.
  destruct (file_system (path_resolve directory)) as [[]|]; reflexivity.
Qed.

Lemma review_and_report_cases (directory : string) (stream : EventStream) :
  match outcome (runCodeReview toFixed directory stream) with
  | Normal (Some payload) =>
      ∃ r, as_ReviewResult payload = Some r
           ∧ review_and_report toFixed directory stream
             = MkJS (console (runCodeReview toFixed directory stream)
                     ++ console (printResults r))
                    (outcome (printResults r))
  | Normal None =>
      review_and_report toFixed directory stream
      = MkJS (console (runCodeReview toFixed directory stream)) (Normal tt)
  | Throw e =>
      review_and_report toFixed directory stream
      = MkJS (console (runCodeReview toFixed directory stream)) (Throw e)
  end.
Proof.
  unfold review_and_report.
  pose proof (runCodeReview_valid toFixed directory stream) as V.
  destruct (runCodeReview toFixed directory stream) as [lines [[p|]|e]];
    cbn [outcome console] in *.
  - destruct (V p eq_refl) as [_ [r R]]. exists r. split; [exact R|].
    rewrite JS_bind_assoc_Normal, R. reflexivity.
  - rewrite JS_bind_assoc_Normal. cbn. rewrite app_nil_r. reflexivity.
  - reflexivity.
Qed.

(** X13: when what the argument resolves to is missing or is not a
    directory, the program prints nothing to standard output (no session is
    opened), prints one line to standard error that says which of the two it
    is and names the resolved path, and exits with code 1. *)
Theorem main_invalid_directory (argv2 : option string)
        (stream : EventStream) :
  file_system (path_resolve (directory_argument argv2)) ≠ Some Directory →
  main toFixed path_resolve file_system argv2 stream
  = {| stdout := [];
       stderr :=
         ["Error: "
          ++ match file_system (path_resolve (directory_argument argv2)) with
             | None => "Directory does not exist: "
             | Some _ => "Path is not a directory: "
             end
          ++ path_resolve (directory_argument argv2)];
       exit_code := 1 |}.
Proof.
  intros N. unfold main.
  pose proof (validateDirectory_cases (directory_argument argv2)) as V.
  destruct (file_system (path_resolve (directory_argument argv2)))
    as [[]|]; [contradiction| |]; rewrite V; reflexivity.
Qed.

(** X14: the program exits with code 0 or 1, and it writes to standard error
    exactly when it exits with 1: one line, which starts with Error:. *)
Theorem main_exit_code (argv2 : option string) (stream : EventStream) :
  (exit_code (main toFixed path_resolve file_system argv2 stream) = 0
   ∧ stderr (main toFixed path_resolve file_system argv2 stream) = [])
  ∨ (exit_code (main toFixed path_resolve file_system argv2 stream) = 1
     ∧ ∃ msg, stderr (main toFixed path_resolve file_system argv2 stream) = ["Error: " ++ msg]).
Proof.
  unfold main.
  destruct (validateDirectory _ _ _) as [d|msg]; [|right; eauto].
  destruct (outcome _); [left | right]; eauto.
Qed.

(** X15: in a directory that is valid, when the review raises or records
    nothing, no report is printed: standard output holds the lines of the
    review and nothing else.  The program exits with 0 when nothing was
    recorded, and with 1 and the message of the error when the review
    raised. *)
Theorem main_without_result (argv2 : option string) (stream : EventStream)
        (directory : string) :
  validateDirectory path_resolve file_system (directory_argument argv2) = inl directory →
  (outcome (runCodeReview toFixed directory stream) = Normal None →
   main toFixed path_resolve file_system argv2 stream
   = {| stdout := console (runCodeReview toFixed directory stream);
        stderr := []; exit_code := 0 |})
  ∧ (∀ e, outcome (runCodeReview toFixed directory stream) = Throw e →
     main toFixed path_resolve file_system argv2 stream
     = {| stdout := console (runCodeReview toFixed directory stream);
          stderr := ["Error: " ++ error_message e]; exit_code := 1 |}).
Proof.
  intros V. unfold main. rewrite V.
  pose proof (review_and_report_cases directory stream) as R.
  split.
  - intros O. rewrite O in R. rewrite R. reflexivity.
  - intros e O. rewrite O in R. rewrite R. reflexivity.
Qed.

(** X16: in a directory that is valid, when the review returns a payload,
    that payload reads as a [ReviewResult], and standard output holds the
    lines of the review followed by the lines of its report; the program
    exits with 0 when the report completes, and with 1 and the message of
    the error when printing the report raises. *)
Theorem main_with_result (argv2 : option string) (stream : EventStream)
        (directory : string) (payload : value) :
  validateDirectory path_resolve file_system (directory_argument argv2) = inl directory →
  outcome (runCodeReview toFixed directory stream) = Normal (Some payload) →
  ∃ r,
    as_ReviewResult payload = Some r
    ∧ stdout (main toFixed path_resolve file_system argv2 stream)
      = (console (runCodeReview toFixed directory stream)
         ++ console (printResults r))%list
    ∧ match outcome (printResults r) with
      | Normal _ =>
          exit_code (main toFixed path_resolve file_system argv2 stream) = 0
          ∧ stderr (main toFixed path_resolve file_system argv2 stream) = []
      | Throw e =>
          exit_code (main toFixed path_resolve file_system argv2 stream) = 1
          ∧ stderr (main toFixed path_resolve file_system argv2 stream) = ["Error: " ++ error_message e]
      end.
Proof.
  intros V O. unfold main. rewrite V.
  pose proof (review_and_report_cases directory stream) as R.
  rewrite O in R. destruct R as (r & A & ->). exists r.
  split; [exact A|]. cbn [outcome console].
  destruct (outcome (printResults r)); cbn; auto.
Qed.

(** X17: in a directory that is valid, when the progress lines can be written
    and the stream ends with a terminal message of success status whose
    payload conforms to [reviewSchema], the program prints the lines of the
    review, the line of the cost and then the whole report, writes nothing to
    standard error and exits with code 0. *)
Theorem main_conforming (argv2 : option string) (directory : string)
        (pre : list SDKMessage) (payload : value) (cost : option number) :
  validateDirectory path_resolve file_system (directory_argument argv2)
  = inl directory →
  Forall (λ m, renders m = true) pre →
  conforms reviewSchema payload = true →
  ∃ r lines,
    as_ReviewResult payload = Some r
    ∧ main toFixed path_resolve file_system argv2
        {| events := pre ++ [SDKResultMessage "success" payload cost];
           failure := None |}
      = {| stdout := (lines ++ [nl ++ "✅ Review complete! Cost: $" ++
                                toFixed (default (NInt 0) cost)])
                     ++ console (printResults r);
           stderr := [];
           exit_code := 0 |}.
Proof.
  intros V R C.
  destruct (conforms_reviewSchema_fields payload C)
    as (o & elems & s & n & E & Hi & Hs & Hn & _).
  assert (T : ToBoolean payload = true) by (rewrite E; reflexivity).
  assert (G : isValidReviewResult payload = Normal true).
  { rewrite E, isValidReviewResult_object. unfold prop.
    rewrite Hi, Hs, Hn. reflexivity. }
  destruct (runCodeReview_success_run toFixed directory pre payload cost R T G)
    as [lines Run].
  pose proof (review_and_report_cases directory
    {| events := pre ++ [SDKResultMessage "success" payload cost];
       failure := None |}) as Cases.
  rewrite Run in Cases. cbn [outcome console] in Cases.
  destruct Cases as (r & A & Report).
  destruct (printResults_conforming_run payload r C A) as [O _].
  exists r, lines. split; [exact A|].
  unfold main. rewrite V, Report. cbn [outcome console]. rewrite O.
  reflexivity.
Qed.

End Program.

Lemma main_invalid_directory_witness :
  main toFixed_unused resolve_in_root only_src (Some "a.ts")
       stream_progress_only
  = {| stdout := [];
       stderr := ["Error: Path is not a directory: /a.ts"];
       exit_code := 1 |}.
Proof.
  apply (main_invalid_directory toFixed_unused resolve_in_root only_src
           (Some "a.ts") stream_progress_only).
  discriminate.
Defined.

Lemma main_without_result_witness :
  main toFixed_unused resolve_in_root only_src (Some "src")
       stream_progress_only
  = {| stdout := console (runCodeReview toFixed_unused "/src"
                            stream_progress_only);
       stderr := []; exit_code := 0 |}.
Proof.
  apply (proj1 (main_without_result toFixed_unused resolve_in_root only_src
                  (Some "src") stream_progress_only "/src" eq_refl)).
  vm_compute. reflexivity.
Defined.

Lemma main_with_result_witness :
  ∃ r,
    as_ReviewResult secret_payload = Some r
    ∧ stdout (main toFixed_unused resolve_in_root only_src (Some "src")
                {| events := [SDKResultMessage "success" secret_payload None];
                   failure := None |})
      = (console (runCodeReview toFixed_unused "/src"
                    {| events := [SDKResultMessage "success" secret_payload
                                                   None];
                       failure := None |})
         ++ console (printResults r))%list.
Proof.
  destruct (main_with_result toFixed_unused resolve_in_root only_src
              (Some "src")
              {| events := [SDKResultMessage "success" secret_payload None];
                 failure := None |} "/src" secret_payload)
    as (r & A & S & _).
  - reflexivity.
  - vm_compute. reflexivity.
  - exists r. split; [exact A | exact S].
Defined.

Lemma main_conforming_witness :
  ∃ r lines,
    as_ReviewResult secret_payload = Some r
    ∧ main toFixed_unused resolve_in_root only_src None
        {| events := [] ++ [SDKResultMessage "success" secret_payload None];
           failure := None |}
      = {| stdout := (lines ++ [nl ++ "✅ Review complete! Cost: $" ++
                                toFixed_unused (default (NInt 0) None)])
                     ++ console (printResults r);
           stderr := [];
           exit_code := 0 |}.
Proof.
  apply (main_conforming toFixed_unused resolve_in_root only_src None "/.").
  - reflexivity.
  - constructor.
  - vm_compute. reflexivity.
Defined.

(** The report of a payload that holds null after an issue: the program
    prints the message of the engine and exits with 1. *)
Example main_null_issue :
  stderr (main toFixed_unused resolve_in_root only_src (Some "src")
            {| events := [SDKResultMessage "success" low_then_null_payload
                                           None];
               failure := None |})
  = ["Error: Cannot read properties of null (reading 'severity')"]
  ∧ exit_code (main toFixed_unused resolve_in_root only_src (Some "src")
                 {| events := [SDKResultMessage "success"
                                 low_then_null_payload None];
                    failure := None |})
    = 1.
Proof. split; vm_compute; reflexivity. Qed.
